(** * Threatfeed news-api: the ingestion, ranking and aggregation core

    A shallow embedding of [news-api/main.go] and the [db] package
    (scorer, classifier, article table, threat aggregation, article query,
    CSV restore, and the fan-in of one caching run), with the properties
    the specification states about them.

    Conventions of the embedding.
    - Go [string]s are Rocq [string]s (sequences of bytes).
      [strings.ToLower] is the ASCII case mapping; bytes outside
      ['A'..'Z'] are left as they are, which is what Go does on ASCII text.
    - Go [int] is [Z].  The ranks the scorer produces are bounded by the
      sum of a keyword table (see [calculateRank_bounds]) and the row
      counters are bounded by the number of rows of a table whose
      AUTOINCREMENT key is a 64-bit integer, so no addition below wraps.
    - A [time.Time] is the number of whole seconds since Go's zero time,
      the resolution of the layout ["2006-01-02 15:04:05"] the queries
      format their bounds with; comparisons of the [publishedAt] column
      are comparisons of instants.
    - The [articles] table is the list of its rows in insertion order. *)

From Stdlib Require Import ZArith List String Ascii Bool Lia.
From Stdlib Require Import Sorted Permutation Relations.
Import ListNotations.

Local Open Scope string_scope.
Local Open Scope Z_scope.

(* ===================================================================== *)
(** * Go library functions used by the package                            *)
(* ===================================================================== *)

Module GoStrings.

(** One byte of [strings.ToLower] on ASCII text. *)
Definition lowerByte (c : ascii) : ascii :=
  let n := N_of_ascii c in
  if ((65 <=? n) && (n <=? 90))%N then ascii_of_N (n + 32) else c.

Fixpoint ToLower (s : string) : string :=
  match s with
  | EmptyString => EmptyString
  | String c rest => String (lowerByte c) (ToLower rest)
  end.

(** [strings.HasPrefix s prefix]. *)
Fixpoint HasPrefix (s prefix : string) {struct prefix} : bool :=
  match prefix, s with
  | EmptyString, _ => true
  | String _ _, EmptyString => false
  | String p prefix', String c s' => Ascii.eqb p c && HasPrefix s' prefix'
  end.

(** [strings.Contains s substr]: [substr] starts at some offset of [s]. *)
Fixpoint Contains (s substr : string) : bool :=
  HasPrefix s substr ||
  match s with
  | EmptyString => false
  | String _ s' => Contains s' substr
  end.

End GoStrings.
Import GoStrings.

(* ===================================================================== *)
(** * models.NewsArticle                                                  *)
(* ===================================================================== *)

Definition Time := Z.

Record NewsArticle := mkNewsArticle {
  Title       : string;
  Description : string;
  ImageURL    : string;
  URL         : string;
  SourceURL   : string;
  PublishedAt : Time;
  Rank        : Z;
  Category    : string
}.

(* ===================================================================== *)
(** * package main: the configured sources                                *)
(* ===================================================================== *)

Definition RssSources : list string := [
  (* Cybersecurity News *)
  "https://www.bleepingcomputer.com/feed/";
  "https://feeds.feedburner.com/TheHackersNews";
  "https://blogs.cisco.com/security/feed";
  "https://www.wired.com/feed/category/security/latest/rss";
  "https://www.securityweek.com/feed/";
  "https://news.sophos.com/en-us/feed/";
  "https://www.csoonline.com/feed/";
  (* Tech News *)
  "https://www.theverge.com/rss/index.xml";
  "https://techcrunch.com/feed/";
  "https://arstechnica.com/feed/";
  "http://www.engadget.com/rss-full.xml";
  "http://www.fastcodesign.com/rss.xml";
  "http://www.forbes.com/entrepreneurs/index.xml";
  "https://blog.pragmaticengineer.com/rss/";
  "https://browser.engineering/rss.xml";
  "https://githubengineering.com/atom.xml";
  "https://joshwcomeau.com/rss.xml";
  "https://jvns.ca/atom.xml";
  "https://overreacted.io/rss.xml";
  "https://signal.org/blog/rss.xml";
  "https://slack.engineering/feed";
  "https://stripe.com/blog/feed.rss";
  (* Defense News *)
  "https://www.defenseone.com/rss/all/";
  "https://thediplomat.com/category/asia-defense/feed/";
  "https://www.janes.com/osint-insights/defence-news/feed/";
  "https://www.militarytimes.com/arc/outboundfeeds/news-rss/";
  "https://www.defensenews.com/arc/outboundfeeds/home-rss/"
].

(* ===================================================================== *)
(** * package db: scorer                                                  *)
(* ===================================================================== *)

(** The keyword tables of [calculateRank].  A Go map literal has distinct
    keys and is only iterated here, so each table is the list of its
    entries in source order ([rank_order_irrelevant] shows that the
    iteration order of the map does not matter). *)

Definition cybersecurityKeywords : list (string * Z) := [
  (* High Impact (Score 5) *)
  ("zero-day", 5); ("exploit in the wild", 5); ("active attack", 5);
  ("critical vulnerability", 5); ("alert", 5); ("warning", 5);
  ("patch now", 5); ("ransomware attack", 5); ("breach confirmed", 5);
  (* Medium Impact (Score 3) *)
  ("vulnerability", 3); ("exploit", 3); ("breach", 3); ("attack", 3);
  ("malware", 3); ("ransomware", 3); ("phishing", 3); ("threat", 3);
  ("advisory", 3);
  (* Low Impact (Score 1) *)
  ("security", 1); ("cybersecurity", 1); ("data", 1); ("privacy", 1);
  ("risk", 1); ("compliance", 1); ("encryption", 1); ("patch", 1)
].

Definition techKeywords : list (string * Z) := [
  (* High Impact (Score 5) *)
  ("ai", 5); ("artificial intelligence", 5); ("quantum computing", 5);
  ("breakthrough", 5); ("major update", 5); ("new chip", 5);
  ("innovation", 5); ("future of tech", 5);
  (* Medium Impact (Score 3) *)
  ("startup", 3); ("funding", 3); ("acquisition", 3); ("cloud", 3);
  ("5g", 3); ("machine learning", 3); ("data science", 3); ("web3", 3);
  ("metaverse", 3); ("robotics", 3);
  (* Low Impact (Score 1) *)
  ("review", 1); ("gadget", 1); ("app", 1); ("software", 1);
  ("hardware", 1); ("update", 1); ("guide", 1); ("tips", 1)
].

Definition generalKeywords : list (string * Z) := [
  ("news", 1); ("update", 1); ("report", 1)
].

(** The [switch article.Category] of [calculateRank]. *)
Definition keywordsFor (category : string) : list (string * Z) :=
  if (category =? "Cybersecurity")%string then cybersecurityKeywords
  else if (category =? "Tech")%string then techKeywords
  else generalKeywords.

(** [strings.ToLower(article.Title + " " + article.Description)]. *)
Definition contentOf (title description : string) : string :=
  ToLower (title ++ " " ++ description).

(** The loop [for keyword, score := range keywords]. *)
Definition sumMatches (content : string) (keywords : list (string * Z))
    (rank : Z) : Z :=
  fold_left
    (fun rank kw => if Contains content (fst kw) then rank + snd kw else rank)
    keywords rank.

Definition calculateRank (article : NewsArticle) : Z :=
  sumMatches (contentOf (Title article) (Description article))
             (keywordsFor (Category article)) 0.

(** The specification's [score(category, title, description)]: the scorer
    on an article carrying these three fields. *)
Definition score (category title description : string) : Z :=
  calculateRank
    (mkNewsArticle title description "" "" "" 0 0 category).

(** The keywords of a table that occur in a text. *)
Definition matched (content : string) (keywords : list (string * Z))
    : list (string * Z) :=
  filter (fun kw => Contains content (fst kw)) keywords.

(** The sum of the weights of some table entries. *)
Definition totalWeight (keywords : list (string * Z)) : Z :=
  fold_right (fun kw total => snd kw + total) 0 keywords.

(* ===================================================================== *)
(** * package db: classifier                                              *)
(* ===================================================================== *)

Definition cybersecuritySources : list string := [
  "https://www.bleepingcomputer.com/feed/";
  "https://feeds.feedburner.com/TheHackersNews";
  "https://blogs.cisco.com/security/feed";
  "https://www.wired.com/feed/category/security/latest/rss";
  "https://www.securityweek.com/feed/";
  "https://news.sophos.com/en-us/feed/";
  "https://www.csoonline.com/feed/"
].

Definition techSources : list string := [
  "https://www.theverge.com/rss/index.xml";
  "https://techcrunch.com/feed/";
  "https://arstechnica.com/feed/";
  "http://www.engadget.com/rss-full.xml";
  "http://www.fastcodesign.com/rss.com";
  "http://www.forbes.com/entrepreneurs/index.xml";
  "https://blog.pragmaticengineer.com/rss/";
  "https://browser.engineering/rss.xml";
  "https://githubengineering.com/atom.com";
  "https://joshwcomeau.com/rss.xml";
  "https://jvns.ca/atom.xml";
  "https://overreacted.io/rss.com";
  "https://signal.org/blog/rss.com";
  "https://slack.engineering/feed";
  "https://stripe.com/blog/feed.rss"
].

Definition defenseSources : list string := [
  "https://www.defenseone.com/rss/all/";
  "https://thediplomat.com/category/asia-defense/feed/";
  "https://www.janes.com/osint-insights/defence-news/feed/";
  "https://www.militarytimes.com/arc/outboundfeeds/news-rss/";
  "https://www.defensenews.com/arc/outboundfeeds/home-rss/"
].

(** [for _, s := range sources { if s == sourceURL { return ... } }]. *)
Definition listed (sources : list string) (sourceURL : string) : bool :=
  existsb (fun s => (s =? sourceURL)%string) sources.

Definition getCategoryForSource (sourceURL : string) : string :=
  if listed cybersecuritySources sourceURL then "Cybersecurity"
  else if listed techSources sourceURL then "Tech"
  else if listed defenseSources sourceURL then "Defense"
  else "General".

(* ===================================================================== *)
(** * package db: the articles table                                      *)
(* ===================================================================== *)

(** The rows of [articles], oldest insertion first. *)
Definition Table := list NewsArticle.

Definition error := string.

(** Some row carries this [url] (the column is declared
    [url TEXT NOT NULL UNIQUE]). *)
Definition hasURL (url : string) (rows : Table) : bool :=
  existsb (fun row => (URL row =? url)%string) rows.

(** [INSERT OR IGNORE INTO articles(...) VALUES(...)]: a row that would
    violate the uniqueness of [url] is dropped without an error. *)
Definition insertOrIgnore (article : NewsArticle) (rows : Table) : Table :=
  if hasURL (URL article) rows then rows else (rows ++ [article])%list.

(** [InsertArticle] on an open database: the statement is prepared and
    executed, and its error (none for an ignored row) is returned. *)
Definition InsertArticle (article : NewsArticle) (rows : Table)
    : Table * option error :=
  (insertOrIgnore article rows, None).

(** [SELECT COUNT( * ) FROM articles]. *)
Definition GetArticleCount (rows : Table) : Z := Z.of_nat (List.length rows).

(** [DELETE FROM articles]. *)
Definition ClearAllArticlesForTest (rows : Table) : Table := [].

(* ===================================================================== *)
(** * package db: threat aggregation                                      *)
(* ===================================================================== *)

Record ThreatScore := mkThreatScore {
  LowRankCount    : Z;
  MediumRankCount : Z;
  HighRankCount   : Z;
  TotalArticles   : Z;
  ThreatLevel     : string
}.

(** The four counters of the scan, [low, medium, high, total]. *)
Record Counters := mkCounters {
  lowRankCount : Z; mediumRankCount : Z; highRankCount : Z; totalArticles : Z
}.

(** The body of [for rows.Next()]. *)
Definition countRank (c : Counters) (rank : Z) : Counters :=
  let total := totalArticles c + 1 in
  if rank <? 2 then
    mkCounters (lowRankCount c + 1) (mediumRankCount c) (highRankCount c) total
  else if rank <? 5 then
    mkCounters (lowRankCount c) (mediumRankCount c + 1) (highRankCount c) total
  else
    mkCounters (lowRankCount c) (mediumRankCount c) (highRankCount c + 1) total.

Definition levelOf (c : Counters) : string :=
  if totalArticles c =? 0 then "No Threats Reported"
  else if highRankCount c >? 0 then "Code Red"
  else if mediumRankCount c >? 0 then "Attention"
  else "Business as Usual".

(** [time.Now().Add(-24 * time.Hour)], in seconds. *)
Definition twentyFourHoursAgo (now : Time) : Time := now - 24 * 3600.

(** [SELECT rank FROM articles WHERE publishedAt >= ?]. *)
Definition recentRanks (now : Time) (rows : Table) : list Z :=
  map Rank (filter (fun row => PublishedAt row >=? twentyFourHoursAgo now) rows).

Definition GetTodayThreatScore (now : Time) (rows : Table)
    : ThreatScore * option error :=
  let c := fold_left countRank (recentRanks now rows) (mkCounters 0 0 0 0) in
  (mkThreatScore (lowRankCount c) (mediumRankCount c) (highRankCount c)
                 (totalArticles c) (levelOf c),
   None).

(** The articles of the trailing 24-hour window, and the number of rows a
    predicate selects: the vocabulary the specification uses. *)
Definition inWindow (now : Time) (rows : Table) : Table :=
  filter (fun row => now - 86400 <=? PublishedAt row) rows.

Definition countIf (p : NewsArticle -> bool) (rows : Table) : Z :=
  Z.of_nat (List.length (filter p rows)).

(* ===================================================================== *)
(** * package db: the article query                                       *)
(* ===================================================================== *)

(** SQLite's [LIKE]: [%] stands for any run of characters, [_] for one
    character, any other character for itself up to ASCII case. *)
Fixpoint like (pattern text : string) : bool :=
  match pattern with
  | EmptyString =>
      match text with EmptyString => true | String _ _ => false end
  | String p pattern' =>
      if Ascii.eqb p "%" then
        (fix anyRun (t : string) : bool :=
           like pattern' t ||
           match t with
           | EmptyString => false
           | String _ t' => anyRun t'
           end) text
      else
        match text with
        | EmptyString => false
        | String c text' =>
            (Ascii.eqb p "_" || Ascii.eqb (lowerByte p) (lowerByte c))
            && like pattern' text'
        end
  end.

(** [(LOWER(title) LIKE ? OR LOWER(description) LIKE ?)] with both
    arguments bound to ["%" + strings.ToLower(searchFilter) + "%"]. *)
Definition searchClause (searchFilter : string) (row : NewsArticle) : bool :=
  let searchPattern := "%" ++ ToLower searchFilter ++ "%" in
  like searchPattern (ToLower (Title row))
  || like searchPattern (ToLower (Description row)).

(** [time.Time.IsZero]. *)
Definition IsZero (t : Time) : bool := t =? 0.

Definition nonEmpty (s : string) : bool :=
  match s with EmptyString => false | String _ _ => true end.

(** The [whereClauses], each as the predicate it denotes on a row. *)
Definition whereClauses (sourceFilter categoryFilter searchFilter : string)
    (startDate endDate : Time) : list (NewsArticle -> bool) :=
  ((if nonEmpty sourceFilter && negb (sourceFilter =? "all")%string
   then [fun row => (SourceURL row =? sourceFilter)%string] else [])
  ++ (if nonEmpty categoryFilter && negb (categoryFilter =? "all")%string
      then [fun row => (Category row =? categoryFilter)%string] else [])
  ++ (if nonEmpty searchFilter then [searchClause searchFilter] else [])
  ++ (if negb (IsZero startDate)
      then [fun row => PublishedAt row >=? startDate] else [])
  ++ (if negb (IsZero endDate)
      then [fun row => PublishedAt row <=? endDate] else []))%list.

(** [strings.Join(whereClauses, " AND ")]. *)
Definition satisfies (clauses : list (NewsArticle -> bool))
    (row : NewsArticle) : bool :=
  forallb (fun clause => clause row) clauses.

(** [ORDER BY key DESC].  SQL leaves the order of rows with equal keys
    open; here they keep their insertion order. *)
Fixpoint insertDesc (key : NewsArticle -> Z) (row : NewsArticle)
    (sorted : list NewsArticle) : list NewsArticle :=
  match sorted with
  | [] => [row]
  | r :: sorted' =>
      if key r <=? key row then row :: sorted
      else r :: insertDesc key row sorted'
  end.

Definition orderByDesc (key : NewsArticle -> Z) (rows : list NewsArticle)
    : list NewsArticle :=
  fold_right (insertDesc key) [] rows.

(** [LIMIT ?], added to the query only when [limit > 0]. *)
Definition limitRows (limit : Z) (rows : list NewsArticle)
    : list NewsArticle :=
  if limit >? 0 then firstn (Z.to_nat limit) rows else rows.

(** The [SELECT] that [GetArticlesFromDB] assembles. *)
Definition selectArticles (sourceFilter categoryFilter searchFilter : string)
    (limit : Z) (startDate endDate : Time) (sortBy : string) (rows : Table)
    : list NewsArticle :=
  let clauses :=
    whereClauses sourceFilter categoryFilter searchFilter startDate endDate in
  let selected := filter (satisfies clauses) rows in
  let ordered :=
    if (sortBy =? "rank")%string then orderByDesc Rank selected
    else orderByDesc PublishedAt selected in
  limitRows limit ordered.

(** [GetArticlesFromDB]; [db] is [None] for the nil handle. *)
Definition GetArticlesFromDB (db : option Table)
    (sourceFilter categoryFilter searchFilter : string) (limit : Z)
    (startDate endDate : Time) (sortBy : string)
    : list NewsArticle * option error :=
  match db with
  | None => ([], Some "database connection is nil")
  | Some rows =>
      (selectArticles sourceFilter categoryFilter searchFilter limit
                      startDate endDate sortBy rows,
       None)
  end.

(** A list is in descending order of [key]. *)
Definition descendingBy (key : NewsArticle -> Z) (rows : list NewsArticle)
    : Prop :=
  StronglySorted (fun a b => key b <= key a) rows.

(* ===================================================================== *)
(** * strconv.Atoi and encoding/csv                                       *)
(* ===================================================================== *)

Module strconv.

Definition isDigit (c : ascii) : bool :=
  let n := N_of_ascii c in ((48 <=? n) && (n <=? 57))%N.

Definition digitValue (c : ascii) : Z := Z.of_N (N_of_ascii c) - 48.

(** The value of a run of decimal digits, [None] on any other byte. *)
Fixpoint digits (s : string) (acc : Z) : option Z :=
  match s with
  | EmptyString => Some acc
  | String c rest =>
      if isDigit c then digits rest (10 * acc + digitValue c) else None
  end.

Definition minInt : Z := - 2 ^ 63.
Definition maxInt : Z := 2 ^ 63 - 1.

(** [strconv.Atoi] on a 64-bit platform: an optional sign, at least one
    decimal digit, nothing else, and a value that fits an [int];
    [None] stands for a non-nil error. *)
Definition Atoi (s : string) : option Z :=
  let (negative, body) :=
    match s with
    | String "-" rest => (true, rest)
    | String "+" rest => (false, rest)
    | _ => (false, s)
    end in
  match body with
  | EmptyString => None
  | String _ _ =>
      match digits body 0 with
      | None => None
      | Some v =>
          let n := if negative then - v else v in
          if (minInt <=? n) && (n <=? maxInt) then Some n else None
      end
  end.

End strconv.

Module csv.

(** What the tokenizer finds on one line of the file: a record, or a
    syntax error after the fields read so far. *)
Inductive Line :=
| Fields (record : list string)
| Malformed (partial : list string).

(** The end of [Reader.readRecord]: the field count of the first record
    becomes [FieldsPerRecord], and a later record of another length is
    returned together with [ErrFieldCount]. *)
Definition readRecord (FieldsPerRecord : Z) (line : Line)
    : list string * option error * Z :=
  let (dst, err) :=
    match line with
    | Fields record => (record, None)
    | Malformed partial => (partial, Some "parse error")
    end in
  let len := Z.of_nat (List.length dst) in
  if FieldsPerRecord >? 0 then
    match err with
    | None =>
        if negb (len =? FieldsPerRecord)
        then (dst, Some "wrong number of fields", FieldsPerRecord)
        else (dst, None, FieldsPerRecord)
    | Some e => (dst, Some e, FieldsPerRecord)
    end
  else if FieldsPerRecord =? 0 then (dst, err, len)
  else (dst, err, FieldsPerRecord).

End csv.

(* ===================================================================== *)
(** * package db: CSV restore                                             *)
(* ===================================================================== *)

Definition expectedHeaders : list string :=
  ["Title"; "Description"; "ImageURL"; "URL"; "SourceURL"; "PublishedAt";
   "Rank"; "Category"].

(** [record[i]]; every use below is guarded by [len(record) == 8]. *)
Definition field (record : list string) (i : nat) : string :=
  nth i record "".

Section Restore.

(** [time.Parse(time.RFC3339, s)]; [None] stands for a non-nil error. *)
Variable ParseRFC3339 : string -> option Time.

(** What one data row contributes: the article to insert, or nothing
    when one of the three checks of the loop body skips the row. *)
Definition articleOfRecord (record : list string) : option NewsArticle :=
  if negb (Z.of_nat (List.length record) =? 8) then None
  else
    match ParseRFC3339 (field record 5) with
    | None => None
    | Some publishedAt =>
        match strconv.Atoi (field record 6) with
        | None => None
        | Some rank =>
            Some (mkNewsArticle (field record 0) (field record 1)
                                (field record 2) (field record 3)
                                (field record 4) publishedAt rank
                                (field record 7))
        end
    end.

(** The loop [for { record, err := reader.Read() ... }]; it ends at
    [io.EOF], the end of [lines]. *)
Fixpoint importRecords (FieldsPerRecord : Z) (lines : list csv.Line)
    (rows : Table) (importedCount : Z) : Table * Z :=
  match lines with
  | [] => (rows, importedCount)
  | line :: lines' =>
      match csv.readRecord FieldsPerRecord line with
      | (_, Some _, fpr) => importRecords fpr lines' rows importedCount
      | (record, None, fpr) =>
          match articleOfRecord record with
          | None => importRecords fpr lines' rows importedCount
          | Some article =>
              importRecords fpr lines' (insertOrIgnore article rows)
                            (importedCount + 1)
          end
      end
  end.

(** [LoadArticlesFromCSV]; [file] is [None] when the path cannot be
    opened, else the lines of the file. *)
Definition LoadArticlesFromCSV (file : option (list csv.Line))
    (rows : Table) : Table * option error :=
  match file with
  | None => (rows, Some "failed to open CSV file")
  | Some [] => (rows, Some "failed to read CSV header")
  | Some (first :: lines) =>
      match csv.readRecord 0 first with
      | (_, Some _, _) => (rows, Some "failed to read CSV header")
      | (header, None, fpr) =>
          if negb (Z.of_nat (List.length header)
                   =? Z.of_nat (List.length expectedHeaders))
          then (rows, Some "invalid CSV header")
          else (fst (importRecords fpr lines rows 0), None)
      end
  end.

(** The three reasons the specification names for skipping a row. *)
Definition wrongColumnCount (record : list string) : Prop :=
  List.length record <> 8%nat.
Definition unparseableTimestamp (record : list string) : Prop :=
  ParseRFC3339 (field record 5) = None.
Definition unparseableRank (record : list string) : Prop :=
  strconv.Atoi (field record 6) = None.

End Restore.

(* ===================================================================== *)
(** * package db: one caching run                                         *)
(* ===================================================================== *)

Module lingua.
Inductive Language :=
| English | German | French | Spanish | Russian | Chinese | Unknown.

Definition isEnglish (l : Language) : bool :=
  match l with English => true | _ => false end.
End lingua.

Module gofeed.
(** [gofeed.Image]; only its [URL] is read. *)
Record ImageT := mkImage { URL : string }.

Record Item := mkItem {
  Title           : string;
  Description     : string;
  Link            : string;
  Image           : option ImageT;
  PublishedParsed : option Time
}.

Record Feed := mkFeed {
  Items               : list Item;
  FeedPublishedParsed : option Time
}.
End gofeed.

(** Field assignments on an article. *)
Definition withRank (article : NewsArticle) (rank : Z) : NewsArticle :=
  mkNewsArticle (Title article) (Description article) (ImageURL article)
                (URL article) (SourceURL article) (PublishedAt article)
                rank (Category article).

Definition withImageURL (article : NewsArticle) (url : string) : NewsArticle :=
  mkNewsArticle (Title article) (Description article) url
                (URL article) (SourceURL article) (PublishedAt article)
                (Rank article) (Category article).

Definition withPublishedAt (article : NewsArticle) (t : Time) : NewsArticle :=
  mkNewsArticle (Title article) (Description article) (ImageURL article)
                (URL article) (SourceURL article) t
                (Rank article) (Category article).

Section Worker.

(** [fp.ParseURL(source)]; [None] stands for a non-nil error. *)
Variable ParseURL : string -> option gofeed.Feed.
(** [detector.DetectLanguageOf(text)]. *)
Variable DetectLanguageOf : string -> lingua.Language * bool.
(** [bluemonday.StripTagsPolicy().Sanitize]. *)
Variable Sanitize : string -> string.
(** [Now n] is what the [n]-th call of [time.Now()] in a worker returns. *)
Variable Now : nat -> Time.

(** The body of [for _, item := range feed.Items]: the article sent on
    [articleChan], or nothing when the item is skipped.  [calls] counts
    the calls of [time.Now()] made so far. *)
Definition processItem (source : string) (feed : gofeed.Feed)
    (item : gofeed.Item) (calls : nat) : option NewsArticle * nat :=
  let textToDetect :=
    (gofeed.Title item ++ " " ++ gofeed.Description item)%string in
  let (lang, _) := DetectLanguageOf textToDetect in
  if negb (lingua.isEnglish lang) then (None, calls)
  else
    let category := getCategoryForSource source in
    let article :=
      mkNewsArticle (gofeed.Title item)
                    (Sanitize (gofeed.Description item))
                    "" (gofeed.Link item) source 0 0 category in
    let article := withRank article (calculateRank article) in
    let article :=
      match gofeed.Image item with
      | Some image => withImageURL article (gofeed.URL image)
      | None => article
      end in
    match gofeed.PublishedParsed item with
    | Some t => (Some (withPublishedAt article t), calls)
    | None =>
        match gofeed.FeedPublishedParsed feed with
        | Some t => (Some (withPublishedAt article t), calls)
        | None => (Some (withPublishedAt article (Now calls)), S calls)
        end
    end.

Fixpoint processItems (source : string) (feed : gofeed.Feed)
    (items : list gofeed.Item) (calls : nat) : list NewsArticle * nat :=
  match items with
  | [] => ([], calls)
  | item :: items' =>
      let (sent, calls) := processItem source feed item calls in
      let (rest, calls) := processItems source feed items' calls in
      (match sent with Some article => article :: rest | None => rest end,
       calls)
  end.

(** The goroutine of one source: the articles it sends, in order.  A
    feed that fails to parse ends the worker with nothing sent. *)
Definition fetchWorker (source : string) (calls : nat)
    : list NewsArticle * nat :=
  match ParseURL source with
  | None => ([], calls)
  | Some feed => processItems source feed (gofeed.Items feed) calls
  end.

End Worker.

(** ** The goroutines of [fetchAndCacheNews] as a transition system *)

(** A fetch goroutine: the articles it has yet to send, or [Finished]
    once its deferred [wg.Done()] has run. *)
Inductive Worker :=
| Sending (toSend : list NewsArticle)
| Finished.

(** The goroutine that ranges over [articleChan]. *)
Inductive Writer :=
| Receiving
| Inserting (article : NewsArticle)
| Exited.

(** Where the calling goroutine stands: blocked in [wg.Wait()], about to
    [close(articleChan)], about to log "News caching job completed.", or
    back in its caller. *)
Inductive Caller := AtWait | AtClose | AtLog | Returned.

Record Run := mkRun {
  workers     : list Worker;
  articleChan : list NewsArticle;   (* buffered, oldest first *)
  closed      : bool;
  caller      : Caller;
  writer      : Writer;
  table       : Table
}.

(** [make(chan models.NewsArticle, 100)]. *)
Definition capacity : nat := 100.

Fixpoint setWorker (i : nat) (w : Worker) (ws : list Worker) : list Worker :=
  match ws, i with
  | [], _ => []
  | _ :: ws', O => w :: ws'
  | w0 :: ws', S i' => w0 :: setWorker i' w ws'
  end.

Definition isFinished (w : Worker) : bool :=
  match w with Finished => true | Sending _ => false end.

Inductive step : Run -> Run -> Prop :=
| step_send r i article toSend :
    nth_error (workers r) i = Some (Sending (article :: toSend)) ->
    (List.length (articleChan r) < capacity)%nat ->
    step r (mkRun (setWorker i (Sending toSend) (workers r))
                  (articleChan r ++ [article])%list
                  (closed r) (caller r) (writer r) (table r))
| step_done r i :
    nth_error (workers r) i = Some (Sending []) ->
    step r (mkRun (setWorker i Finished (workers r))
                  (articleChan r) (closed r) (caller r) (writer r) (table r))
| step_wait r :
    caller r = AtWait ->
    forallb isFinished (workers r) = true ->
    step r (mkRun (workers r) (articleChan r) (closed r) AtClose
                  (writer r) (table r))
| step_close r :
    caller r = AtClose ->
    step r (mkRun (workers r) (articleChan r) true AtLog
                  (writer r) (table r))
| step_log r :
    caller r = AtLog ->
    step r (mkRun (workers r) (articleChan r) (closed r) Returned
                  (writer r) (table r))
| step_receive r article queued :
    writer r = Receiving ->
    articleChan r = article :: queued ->
    step r (mkRun (workers r) queued (closed r) (caller r)
                  (Inserting article) (table r))
| step_insert r article :
    writer r = Inserting article ->
    step r (mkRun (workers r) (articleChan r) (closed r) (caller r)
                  Receiving (fst (InsertArticle article (table r))))
| step_exit r :
    writer r = Receiving ->
    articleChan r = [] ->
    closed r = true ->
    step r (mkRun (workers r) (articleChan r) (closed r) (caller r)
                  Exited (table r)).

(** The run right after its goroutines are started: one worker per
    source with the articles it will send, an empty open channel. *)
Definition startRun (sends : list (list NewsArticle)) (rows : Table) : Run :=
  mkRun (map Sending sends) [] false AtWait Receiving rows.

Definition reachable (sends : list (list NewsArticle)) (rows : Table)
    (r : Run) : Prop :=
  clos_refl_trans_n1 Run step (startRun sends rows) r.

(** The run has reported completion: the log line is written. *)
Definition reportedCompletion (r : Run) : Prop := caller r = Returned.

(** Articles submitted by a worker and not yet inserted. *)
Definition inFlight (r : Run) : list NewsArticle :=
  (match writer r with Inserting article => [article] | _ => [] end
   ++ articleChan r)%list.

(* ===================================================================== *)
(** * Vocabulary of the specification                                     *)
(* ===================================================================== *)

(** The configured sources that the classifier's tables do not list. *)
Definition unlistedSources : list string :=
  filter (fun s => (getCategoryForSource s =? "General")%string) RssSources.

(** The row stored under a URL. *)
Definition articleByURL (url : string) (rows : Table) : option NewsArticle :=
  find (fun row => (URL row =? url)%string) rows.

(** The URLs of a table are pairwise distinct, and inserts keep it so:
    the UNIQUE constraint of the column. *)
Definition uniqueURLs (rows : Table) : Prop := NoDup (map URL rows).

(** The buckets of the specification. *)
Definition isLow (rank : Z) : bool := rank <? 2.
Definition isMedium (rank : Z) : bool := (2 <=? rank) && (rank <? 5).
Definition isHigh (rank : Z) : bool := 5 <=? rank.

Definition count (p : Z -> bool) (ranks : list Z) : Z :=
  Z.of_nat (List.length (filter p ranks)).

(** The level the specification derives from the articles of the window. *)
Definition levelOfWindow (recent : Table) : string :=
  match recent with
  | [] => "No Threats Reported"
  | _ :: _ =>
      if existsb (fun a => isHigh (Rank a)) recent then "Code Red"
      else if existsb (fun a => isMedium (Rank a)) recent then "Attention"
      else "Business as Usual"
  end.



(** An article passes the filters of a query, in the specification's
    terms: an empty or "all" source or category filter, an empty search
    filter and a zero date bound do not restrict. *)
Definition qualifies (sourceFilter categoryFilter searchFilter : string)
    (startDate endDate : Time) (a : NewsArticle) : Prop :=
  (sourceFilter = "" \/ sourceFilter = "all" \/ SourceURL a = sourceFilter)
  /\ (categoryFilter = "" \/ categoryFilter = "all"
      \/ Category a = categoryFilter)
  /\ (searchFilter = "" \/ searchClause searchFilter a = true)
  /\ (startDate = 0 \/ startDate <= PublishedAt a)
  /\ (endDate = 0 \/ PublishedAt a <= endDate).







(** The rank of every stored article is the scorer's output for its
    stored category, title and description, and is not negative. *)
Definition rankInvariant (rows : Table) : Prop :=
  forall a, In a rows -> Rank a = calculateRank a /\ 0 <= Rank a.

(** The articles of the valid data rows of a file, in file order. *)
Definition articlesOf (ParseRFC3339 : string -> option Time)
    (lines : list csv.Line) : list NewsArticle :=
  flat_map
    (fun line =>
       match line with
       | csv.Fields record =>
           match articleOfRecord ParseRFC3339 record with
           | Some article => [article]
           | None => []
           end
       | csv.Malformed _ => []
       end)
    lines.

(** Insert-if-absent of a sequence of articles, one after the other. *)
Definition insertAll (articles : list NewsArticle) (rows : Table) : Table :=
  fold_left (fun rows article => insertOrIgnore article rows) articles rows.

(** ** The states of the table a process can reach

    [main] restores from the CSV backup only when the table is empty;
    afterwards every write is an insert by the writer of a caching run, of
    an article some worker built from a feed item. *)
Section Reach.

Variable ParseRFC3339 : string -> option Time.
Variable DetectLanguageOf : string -> lingua.Language * bool.
Variable Sanitize : string -> string.
Variable Now : nat -> Time.

Definition builtByPipeline (article : NewsArticle) : Prop :=
  exists source feed item calls,
    fst (processItem DetectLanguageOf Sanitize Now source feed item calls)
    = Some article.

(** Tables reached by caching runs alone. *)
Inductive Ingested : Table -> Prop :=
| ingested_empty : Ingested []
| ingested_insert rows article :
    Ingested rows -> builtByPipeline article ->
    Ingested (fst (InsertArticle article rows)).

(** Tables reached by a CSV restore into the empty table followed by
    caching runs. *)
Inductive Stored : Table -> Prop :=
| stored_empty : Stored []
| stored_restore file :
    Stored (fst (LoadArticlesFromCSV ParseRFC3339 file []))
| stored_insert rows article :
    Stored rows -> builtByPipeline article ->
    Stored (fst (InsertArticle article rows)).

End Reach.

(** What holds in every state of a run: the channel is closed only once
    every worker is finished; the caller passes [wg.Wait()] only then and
    writes its log line only after [close]; the writer leaves its loop
    only on a closed and empty channel; the buffer never holds more than
    its capacity. *)
Definition runInvariant (r : Run) : Prop :=
  (closed r = true -> forallb isFinished (workers r) = true)
  /\ (caller r = AtClose -> forallb isFinished (workers r) = true)
  /\ (caller r = AtLog \/ caller r = Returned -> closed r = true)
  /\ (writer r = Exited -> articleChan r = [] /\ closed r = true)
  /\ (List.length (articleChan r) <= capacity)%nat.

(** A property of articles holds of everything a run still holds: what
    the workers have yet to send, the buffer, the writer's article and the
    table. *)
Section Holds.

Variable P : NewsArticle -> Prop.

Definition workerHolds (w : Worker) : Prop :=
  match w with Sending toSend => Forall P toSend | Finished => True end.

Definition runHolds (r : Run) : Prop :=
  Forall workerHolds (workers r)
  /\ Forall P (articleChan r)
  /\ match writer r with Inserting article => P article | _ => True end
  /\ Forall P (table r).

End Holds.

(* ===================================================================== *)
(** * Sample inputs                                                       *)
(* ===================================================================== *)

(** Instances of the library functions and the inputs the worked examples
    below are run on. *)
Module sample.

(** Days from 0001-01-01 to the first day of a year of the proleptic
    Gregorian calendar. *)
Definition daysBeforeYear (year : Z) : Z :=
  let p := year - 1 in 365 * p + p / 4 - p / 100 + p / 400.

Definition isLeap (year : Z) : bool :=
  (year mod 4 =? 0) && (negb (year mod 100 =? 0) || (year mod 400 =? 0)).

Definition daysIn (leap : bool) (month : Z) : Z :=
  match month with
  | 1 | 3 | 5 | 7 | 8 | 10 | 12 => 31
  | 4 | 6 | 9 | 11 => 30
  | 2 => if leap then 29 else 28
  | _ => 0
  end.

Definition daysBeforeMonth (leap : bool) (month : Z) : Z :=
  fold_right Z.add 0
    (map (daysIn leap) (map Z.of_nat (seq 1 (Z.to_nat month - 1)))).

Definition number (ds : list ascii) : option Z :=
  if forallb strconv.isDigit ds
  then Some (fold_left (fun acc c => 10 * acc + strconv.digitValue c) ds 0)
  else None.

(** [time.Parse(time.RFC3339, s)] on the timestamps of the shape
    [YYYY-MM-DDTHH:MM:SSZ], in seconds since Go's zero time; this
    instance refuses every other string. *)
Definition parseRFC3339Z (s : string) : option Time :=
  match list_ascii_of_string s with
  | [y1; y2; y3; y4; c1; m1; m2; c2; d1; d2; t; h1; h2; c3; n1; n2; c4;
     s1; s2; z] =>
      if (Ascii.eqb c1 "-" && Ascii.eqb c2 "-" && Ascii.eqb t "T"
          && Ascii.eqb c3 ":" && Ascii.eqb c4 ":" && Ascii.eqb z "Z")%bool
      then
        match number [y1; y2; y3; y4], number [m1; m2], number [d1; d2],
              number [h1; h2], number [n1; n2], number [s1; s2] with
        | Some year, Some month, Some day, Some hour, Some min, Some sec =>
            if ((1 <=? month) && (month <=? 12) && (1 <=? day)
                && (day <=? daysIn (isLeap year) month)
                && (hour <? 24) && (min <? 60) && (sec <? 60))%bool
            then Some ((daysBeforeYear year
                        + daysBeforeMonth (isLeap year) month + day - 1)
                       * 86400 + hour * 3600 + min * 60 + sec)
            else None
        | _, _, _, _, _, _ => None
        end
      else None
  | _ => None
  end.

(** A detector that finds every text English, a sanitizer for text
    without markup, and a clock. *)
Definition detectEnglish (text : string) : lingua.Language * bool :=
  (lingua.English, true).
Definition sanitizePlain (html : string) : string := html.
Definition clock (n : nat) : Time := 63800000000 + Z.of_nat n.

Definition header : csv.Line := csv.Fields expectedHeaders.

(** The file of [TestLoadArticlesFromCSV]. *)
Definition articlesCSV : list csv.Line := [
  header;
  csv.Fields ["Test Article 1"; "Description for article 1";
              "https://img.example.com/1.jpg"; "https://example.com/1";
              "https://source.example.com"; "2024-01-15T10:30:00Z"; "5";
              "Cybersecurity"];
  csv.Fields ["Test Article 2"; "Description for article 2";
              "https://img.example.com/2.jpg"; "https://example.com/2";
              "https://source.example.com"; "2024-01-16T11:30:00Z"; "3";
              "Tech"];
  csv.Fields ["Test Article 3"; "Description for article 3"; "";
              "https://example.com/3"; "https://source.example.com";
              "2024-01-17T12:30:00Z"; "1"; "General"]
].

(** The file of [TestLoadArticlesFromCSV_InvalidFormat]. *)
Definition invalidCSV : list csv.Line := [
  csv.Fields ["Col1"; "Col2"; "Col3"];
  csv.Fields ["val1"; "val2"; "val3"]
].

(** The file of [TestLoadArticlesFromCSV_DuplicateArticles]. *)
Definition duplicateCSV : list csv.Line := [
  header;
  csv.Fields ["Test Article 1"; "Description 1"; "";
              "https://example.com/1"; "https://source.example.com";
              "2024-01-15T10:30:00Z"; "5"; "Cybersecurity"];
  csv.Fields ["Test Article 1 Duplicate"; "Description 2"; "";
              "https://example.com/1"; "https://source.example.com";
              "2024-01-16T11:30:00Z"; "3"; "Tech"]
].

(** A backup whose only row carries the rank [-5]. *)
Definition negativeRankCSV : list csv.Line := [
  header;
  csv.Fields ["An article"; "Some text."; ""; "https://example.com/n";
              "https://source.example.com"; "2024-01-15T10:30:00Z"; "-5";
              "Cybersecurity"]
].

Definition negativeRankArticle : NewsArticle :=
  mkNewsArticle "An article" "Some text." "" "https://example.com/n"
                "https://source.example.com" 63840911400 (-5)
                "Cybersecurity".

(** A row with a date that does not parse, between two valid rows. *)
Definition badDateRow : list string :=
  ["Bad date"; "d"; ""; "https://example.com/bad";
   "https://source.example.com"; "15 January 2024"; "5"; "Tech"].

(** The rows of [TestGetTodayThreatScore], with [now] the instant the
    test runs at. *)
Definition now : Time := 63800000000.

Definition ranked (title url : string) (hoursAgo rank : Z) : NewsArticle :=
  mkNewsArticle title "" "" url "" (now - hoursAgo * 3600) rank
                "Cybersecurity".

Definition threatRows : Table := [
  ranked "t1" "u1" 1 10; ranked "t2" "u2" 2 5; ranked "t3" "u3" 3 4;
  ranked "t4" "u4" 4 2; ranked "t5" "u5" 5 1; ranked "t6" "u6" 6 0;
  ranked "t7" "u7" 48 10
].

(** One feed item without a date and without an image. *)
Definition item : gofeed.Item :=
  gofeed.mkItem "Patch now: ransomware attack" "Details follow."
                "https://example.com/a" None None.

Definition feed : gofeed.Feed := gofeed.mkFeed [item] (Some 63799990000).

Definition article : NewsArticle :=
  mkNewsArticle "t1" "d1" "" "https://example.com/1" "s" 63799990000 0
                "General".

(** Another article under the URL of [article]. *)
Definition sameURL : NewsArticle :=
  mkNewsArticle "t1 again" "d2" "img" "https://example.com/1" "s2"
                63799999000 3 "Tech".

(** What the worker builds from [item] for the Bleeping Computer feed. *)
Definition built : NewsArticle :=
  mkNewsArticle "Patch now: ransomware attack" "Details follow." ""
                "https://example.com/a"
                "https://www.bleepingcomputer.com/feed/" 63799990000 17
                "Cybersecurity".

(** The table after the restore of [articlesCSV], and its second row. *)
Definition restored : Table :=
  Eval vm_compute in
    fst (LoadArticlesFromCSV parseRFC3339Z (Some articlesCSV) []).

Definition negativeRankTable : Table :=
  fst (LoadArticlesFromCSV parseRFC3339Z (Some negativeRankCSV) []).

Definition article2 : NewsArticle :=
  mkNewsArticle "Test Article 2" "Description for article 2"
                "https://img.example.com/2.jpg" "https://example.com/2"
                "https://source.example.com" 63841001400 3 "Tech".

(** What the worker builds from [item] for the Defense One feed. *)
Definition builtDefense : NewsArticle :=
  mkNewsArticle "Patch now: ransomware attack" "Details follow." ""
                "https://example.com/a"
                "https://www.defenseone.com/rss/all/" 63799990000 0
                "Defense".

(** A feed of three items, the second of which the detector below finds
    German. *)
Definition german : gofeed.Item :=
  gofeed.mkItem "Neue Sicherheitswarnung" "Einzelheiten folgen."
                "https://example.com/de" None None.

Definition item2 : gofeed.Item :=
  gofeed.mkItem "Security report" "A data breach." "https://example.com/b"
                (Some (gofeed.mkImage "https://example.com/b.png"))
                (Some 63799995000).

Definition mixedFeed : gofeed.Feed :=
  gofeed.mkFeed [item; german; item2] None.

Definition detectByTitle (text : string) : lingua.Language * bool :=
  if GoStrings.HasPrefix text "Neue" then (lingua.German, true)
  else (lingua.English, true).

End sample.


(* ===================================================================== *)
(** * package db: the stream of all articles                              *)
(* ===================================================================== *)

(** [GetAllArticlesStream]: the rows the returned cursor yields, from
    [SELECT ... FROM articles ORDER BY publishedAt DESC]; [db] is [None]
    for the nil handle. *)
Definition GetAllArticlesStream (db : option Table)
    : list NewsArticle * option error :=
  match db with
  | None => ([], Some "database connection is nil")
  | Some rows => (orderByDesc PublishedAt rows, None)
  end.

(* ===================================================================== *)
(** * Further vocabulary                                                  *)
(* ===================================================================== *)

(** A table extends another: the rows of the first, unchanged and in
    place, followed by added rows. *)
Definition extends (rows' rows : Table) : Prop :=
  exists added, rows' = (rows ++ added)%list.

(** The language filter of the worker on one item. *)
Definition isAccepted (DetectLanguageOf : string -> lingua.Language * bool)
    (item : gofeed.Item) : bool :=
  lingua.isEnglish
    (fst (DetectLanguageOf
            (gofeed.Title item ++ " " ++ gofeed.Description item)%string)).

(** What the workers of a run have yet to send. *)
Definition toSendOf (w : Worker) : list NewsArticle :=
  match w with Sending toSend => toSend | Finished => [] end.

Definition unsent (r : Run) : list NewsArticle :=
  flat_map toSendOf (workers r).

(** The run is over: the caller has returned and the writer has left its
    loop. *)
Definition terminated (r : Run) : Prop :=
  caller r = Returned /\ writer r = Exited.

(** Where an article submitted to a run is: still with its worker, in
    flight, or in the table under its URL. *)
Definition accountedFor (r : Run) (a : NewsArticle) : Prop :=
  In a (unsent r) \/ In a (inFlight r) \/ hasURL (URL a) (table r) = true.

(** The number of steps a run has left: three per article a worker has
    yet to send (send, receive, insert) and one for its [wg.Done()], two
    per buffered article, what the caller has left of wait, close and
    log, and what the writer has left of insert and exit. *)
Definition workerSteps (w : Worker) : nat :=
  match w with
  | Sending toSend => 3 * List.length toSend + 1
  | Finished => 0
  end.

Definition callerSteps (c : Caller) : nat :=
  match c with AtWait => 3 | AtClose => 2 | AtLog => 1 | Returned => 0 end.

Definition writerSteps (w : Writer) : nat :=
  match w with Receiving => 1 | Inserting _ => 2 | Exited => 0 end.

Definition stepsLeft (r : Run) : nat :=
  list_sum (map workerSteps (workers r))
  + 2 * List.length (articleChan r)
  + callerSteps (caller r) + writerSteps (writer r).

(** Executions of exactly [n] steps. *)
Inductive stepsN : nat -> Run -> Run -> Prop :=
| stepsN_O r : stepsN 0 r r
| stepsN_S n r r' r'' : step r r' -> stepsN n r' r'' -> stepsN (S n) r r''.


(** From here on [++] is the append of lists unless marked otherwise. *)
Local Open Scope list_scope.

(* ===================================================================== *)
(** * Scorer                                                              *)
(* ===================================================================== *)

Lemma totalWeight_cons kw keywords :
  totalWeight (kw :: keywords) = snd kw + totalWeight keywords.
Proof. reflexivity. Qed.

(** The loop adds, to the rank it starts from, the weights of the
    keywords that occur in the text, each table entry once. *)
Lemma sumMatches_matched content keywords rank :
  sumMatches content keywords rank
  = rank + totalWeight (matched content keywords).
Proof.
  revert rank. induction keywords as [|kw keywords IH]; intros rank.
  - cbn. lia.
  - unfold sumMatches in *. cbn [fold_left matched filter].
    destruct (Contains content (fst kw)).
    + rewrite IH. fold (matched content keywords).
      change (totalWeight (kw :: matched content keywords))
        with (snd kw + totalWeight (matched content keywords)). lia.
    + rewrite IH. reflexivity.
Qed.

Lemma calculateRank_matched article :
  calculateRank article
  = totalWeight (matched (contentOf (Title article) (Description article))
                         (keywordsFor (Category article))).
Proof. unfold calculateRank. rewrite sumMatches_matched. lia. Qed.

(** The iteration order of a Go map is not fixed: any order of the table
    gives the same rank. *)
Lemma totalWeight_Permutation l l' :
  Permutation l l' -> totalWeight l = totalWeight l'.
Proof. induction 1; rewrite ?totalWeight_cons in *; lia. Qed.

Lemma matched_Permutation content l l' :
  Permutation l l' -> Permutation (matched content l) (matched content l').
Proof.
  unfold matched. induction 1; cbn [filter].
  - constructor.
  - destruct (Contains content (fst x)); auto.
  - destruct (Contains content (fst x)), (Contains content (fst y));
      auto using perm_swap, Permutation_refl.
  - eapply perm_trans; eauto.
Qed.

Lemma rank_order_irrelevant content keywords keywords' :
  Permutation keywords keywords' ->
  sumMatches content keywords 0 = sumMatches content keywords' 0.
Proof.
  intros HP. rewrite !sumMatches_matched. f_equal.
  apply totalWeight_Permutation, matched_Permutation, HP.
Qed.

(** Every weight of every table is 1, 3 or 5. *)
Lemma keywordsFor_weight category kw :
  In kw (keywordsFor category) -> snd kw = 1 \/ snd kw = 3 \/ snd kw = 5.
Proof.
  unfold keywordsFor.
  destruct (category =? "Cybersecurity")%string;
    [|destruct (category =? "Tech")%string];
    cbn [In cybersecurityKeywords techKeywords generalKeywords];
    intros H; repeat (destruct H as [<-|H]; [cbn; auto|]); contradiction.
Qed.

Lemma keywordsFor_positive category kw :
  In kw (keywordsFor category) -> 0 < snd kw.
Proof. intros H. destruct (keywordsFor_weight _ _ H) as [E|[E|E]]; lia. Qed.

Lemma totalWeight_matched_bounds content keywords :
  (forall kw, In kw keywords -> 0 < snd kw) ->
  0 <= totalWeight (matched content keywords) <= totalWeight keywords.
Proof.
  induction keywords as [|kw keywords IH]; intros Hpos.
  - cbn. lia.
  - assert (0 < snd kw) by (apply Hpos; left; reflexivity).
    assert (0 <= totalWeight (matched content keywords)
            <= totalWeight keywords) as IH'
      by (apply IH; intros; apply Hpos; right; assumption).
    unfold matched in *. cbn [filter].
    destruct (Contains content (fst kw));
      rewrite ?totalWeight_cons; lia.
Qed.

(** A rank is never negative and never exceeds the sum of the largest
    table, far below the range of a Go [int]. *)
Lemma calculateRank_bounds article : 0 <= calculateRank article <= 81.
Proof.
  rewrite calculateRank_matched.
  pose proof (totalWeight_matched_bounds
                (contentOf (Title article) (Description article))
                (keywordsFor (Category article))
                (keywordsFor_positive (Category article))) as H.
  assert (totalWeight (keywordsFor (Category article)) <= 81).
  { unfold keywordsFor.
    destruct (Category article =? "Cybersecurity")%string;
      [|destruct (Category article =? "Tech")%string]; vm_compute; discriminate. }
  lia.
Qed.

(** A text that matches every keyword another text matches scores at
    least as much. *)
Lemma totalWeight_matched_mono content content' keywords :
  (forall kw, In kw keywords -> 0 < snd kw) ->
  (forall kw, In kw keywords ->
     Contains content (fst kw) = true -> Contains content' (fst kw) = true) ->
  totalWeight (matched content keywords)
  <= totalWeight (matched content' keywords).
Proof.
  induction keywords as [|kw keywords IH]; intros Hpos Hsub.
  - cbn. lia.
  - assert (0 < snd kw) by (apply Hpos; left; reflexivity).
    assert (totalWeight (matched content keywords)
            <= totalWeight (matched content' keywords)) as IH'
      by (apply IH; intros; [apply Hpos|apply Hsub]; try right; assumption).
    specialize (Hsub kw (or_introl eq_refl)).
    unfold matched in *. cbn [filter].
    destruct (Contains content (fst kw)).
    + rewrite Hsub by reflexivity.
      rewrite ?totalWeight_cons; lia.
    + destruct (Contains content' (fst kw));
        rewrite ?totalWeight_cons; lia.
Qed.

(** ** Substrings *)

Lemma HasPrefix_spec s prefix :
  HasPrefix s prefix = true <-> exists rest, s = (prefix ++ rest)%string.
Proof.
  revert s. induction prefix as [|p prefix IH]; intros s; cbn.
  - split; [intros _; exists s; reflexivity | reflexivity].
  - destruct s as [|c s].
    + split; [discriminate | intros [rest H]; discriminate].
    + rewrite andb_true_iff, Ascii.eqb_eq, IH. split.
      * intros [-> [rest ->]]. exists rest. reflexivity.
      * intros [rest H]. injection H as -> ->. split; eauto.
Qed.

(** [Contains s substr] holds exactly when [substr] is a factor of [s]. *)
Lemma Contains_spec s substr :
  Contains s substr = true
  <-> exists before after, s = (before ++ substr ++ after)%string.
Proof.
  induction s as [|c s IH].
  - cbn [Contains]. rewrite orb_false_r, HasPrefix_spec. split.
    + intros [rest H]. exists EmptyString, rest. exact H.
    + intros [before [after H]]. destruct before; [|discriminate].
      exists after. exact H.
  - cbn [Contains]. rewrite orb_true_iff, HasPrefix_spec, IH. split.
    + intros [[rest H]|[before [after H]]].
      * exists EmptyString, rest. exact H.
      * exists (String c before), after. cbn. rewrite H. reflexivity.
    + intros [before [after H]]. destruct before as [|b before].
      * left. exists after. exact H.
      * right. cbn in H. injection H as _ H. eauto.
Qed.

Lemma append_assoc (a b c : string) :
  ((a ++ b) ++ c = a ++ (b ++ c))%string.
Proof. induction a as [|x a IH]; cbn; [reflexivity | rewrite IH; reflexivity]. Qed.

Lemma Contains_append s extra substr :
  Contains s substr = true -> Contains (s ++ extra)%string substr = true.
Proof.
  rewrite !Contains_spec. intros [before [after ->]].
  exists before, (after ++ extra)%string. rewrite !append_assoc. reflexivity.
Qed.

Lemma ToLower_append a b :
  ToLower (a ++ b)%string = (ToLower a ++ ToLower b)%string.
Proof. induction a as [|x a IH]; cbn; [reflexivity | rewrite IH; reflexivity]. Qed.

Lemma contentOf_append title description extra :
  contentOf title (description ++ extra)%string
  = (contentOf title description ++ ToLower extra)%string.
Proof.
  unfold contentOf.
  rewrite <- ToLower_append, !append_assoc. reflexivity.
Qed.

(** ** The claims about the scorer *)

(** C4.  The two worked examples of the scorer: the Cybersecurity article
    "Critical zero-day exploit found" / "Active attack with ransomware
    attack confirmed." has rank 24 and the Tech article "Review of the new
    gadget" / "Here are some tips for this software update." has rank 5.
    The score lowercases title, a space and description, and is the sum of
    the weights of the table entries that occur in that text: each entry
    counts once, and entries that overlap in the text all count (here
    "ransomware attack", "ransomware" and "attack"). *)
Theorem score_examples :
  score "Cybersecurity" "Critical zero-day exploit found"
        "Active attack with ransomware attack confirmed." = 24
  /\ score "Tech" "Review of the new gadget"
           "Here are some tips for this software update." = 5
  /\ matched (contentOf "Critical zero-day exploit found"
                        "Active attack with ransomware attack confirmed.")
             (keywordsFor "Cybersecurity")
     = [("zero-day", 5); ("active attack", 5); ("ransomware attack", 5);
        ("exploit", 3); ("attack", 3); ("ransomware", 3)]
  /\ matched (contentOf "Review of the new gadget"
                        "Here are some tips for this software update.")
             (keywordsFor "Tech")
     = [("review", 1); ("gadget", 1); ("software", 1); ("update", 1);
        ("tips", 1)]
  /\ (forall category title description,
        score category title description
        = totalWeight (matched (ToLower (title ++ " " ++ description)%string)
                               (keywordsFor category))).
Proof.
  repeat split; try (vm_compute; reflexivity).
  intros. unfold score. rewrite calculateRank_matched. reflexivity.
Qed.

(** C8 (as the code has it).  The scorer is a pure function of category,
    title and description (equal inputs give equal ranks, and no other
    field of the article enters the rank), and the rank is monotone in
    the set of matched keywords: a text that matches every table keyword
    another text matches, and possibly more, never scores less.  Text
    appended to the description never lowers the rank. *)
Theorem score_deterministic_monotone category title description
    title' description' :
  (forall category2 title2 description2,
     category = category2 -> title = title2 -> description = description2 ->
     score category title description = score category2 title2 description2)
  /\ (forall article,
        Category article = category -> Title article = title ->
        Description article = description ->
        calculateRank article = score category title description)
  /\ ((forall kw, In kw (keywordsFor category) ->
         Contains (contentOf title description) (fst kw) = true ->
         Contains (contentOf title' description') (fst kw) = true) ->
      score category title description
      <= score category title' description')
  /\ (forall extra,
        score category title description
        <= score category title (description ++ extra)%string).
Proof.
  repeat split.
  - intros ? ? ? -> -> ->. reflexivity.
  - intros article <- <- <-. reflexivity.
  - intros Hsub. unfold score. rewrite !calculateRank_matched.
    cbn [Title Description Category].
    apply totalWeight_matched_mono; [apply keywordsFor_positive | exact Hsub].
  - intros extra. unfold score. rewrite !calculateRank_matched.
    cbn [Title Description Category].
    apply totalWeight_matched_mono; [apply keywordsFor_positive|].
    intros kw _ H. rewrite contentOf_append. apply Contains_append, H.
Qed.

(** A run of the monotonicity statement: the second text keeps the match
    of "security" and adds "data" and "breach". *)
Lemma score_deterministic_monotone_witness :
  score "Cybersecurity" "Security news" "Nothing else."
  <= score "Cybersecurity" "Security news" "A data breach.".
Proof.
  destruct (score_deterministic_monotone
              "Cybersecurity" "Security news" "Nothing else."
              "Security news" "A data breach.") as (_ & _ & Hmono & _).
  apply Hmono. intros kw Hin.
  cbn [keywordsFor String.eqb Ascii.eqb Bool.eqb cybersecurityKeywords In]
    in Hin.
  repeat (destruct Hin as [<-|Hin];
          [vm_compute; first [reflexivity | discriminate]|]).
  contradiction.
Defined.

(** C8, counterexample.  Adding text that makes one more keyword match
    can lower the rank.  With the title "Active" and the description
    "attack" the text "active attack" matches "active attack" and
    "attack", rank 8; with " data" added to the title the text is
    "active data attack", which newly matches "data" and no longer
    matches "active attack": rank 4. *)
Lemma added_title_text_lowers_score :
  In ("data", 1) (keywordsFor "Cybersecurity")
  /\ Contains (contentOf "Active" "attack") "data" = false
  /\ Contains (contentOf ("Active" ++ " data")%string "attack") "data" = true
  /\ score "Cybersecurity" "Active" "attack" = 8
  /\ score "Cybersecurity" ("Active" ++ " data")%string "attack" = 4
  /\ ~ (forall category title description extra,
          (exists kw,
             In kw (keywordsFor category)
             /\ Contains (contentOf title description) (fst kw) = false
             /\ Contains (contentOf (title ++ extra)%string description)
                         (fst kw) = true) ->
          score category title description
          <= score category (title ++ extra)%string description).
Proof.
  assert (In ("data", 1) (keywordsFor "Cybersecurity")) as Hin
    by (cbn; tauto).
  repeat split; try exact Hin; try reflexivity.
  intros H.
  specialize (H "Cybersecurity" "Active" "attack" " data").
  assert (score "Cybersecurity" "Active" "attack"
          <= score "Cybersecurity" ("Active" ++ " data")%string "attack")
    as Hle.
  { apply H. exists ("data", 1). repeat split; try exact Hin; reflexivity. }
  vm_compute in Hle. apply Hle. reflexivity.
Qed.

(* ===================================================================== *)
(** * Classifier                                                          *)
(* ===================================================================== *)

(** The classifier answers with one of the four labels on every input. *)
Lemma getCategoryForSource_total sourceURL :
  In (getCategoryForSource sourceURL)
     ["Cybersecurity"; "Tech"; "Defense"; "General"].
Proof.
  unfold getCategoryForSource.
  destruct (listed cybersecuritySources sourceURL); [cbn; auto|].
  destruct (listed techSources sourceURL); [cbn; auto|].
  destruct (listed defenseSources sourceURL); cbn; auto.
Qed.

(** C7.  Four of the configured sources — the feeds of overreacted.io,
    signal.org, githubengineering.com and fastcodesign.com — are classified
    "General" and not "Tech": the classifier's tech table spells each of
    them with ".com" where the configured URL ends in ".xml".  An article of
    category "General" is scored with the table [news, update, report]. *)
Theorem configured_tech_feeds_classified_general :
  (forall source,
     In source ["https://overreacted.io/rss.xml";
                "https://signal.org/blog/rss.xml";
                "https://githubengineering.com/atom.xml";
                "http://www.fastcodesign.com/rss.xml"] ->
     In source RssSources
     /\ getCategoryForSource source = "General"
     /\ getCategoryForSource source <> "Tech"
     /\ listed techSources source = false
     /\ keywordsFor (getCategoryForSource source)
        = [("news", 1); ("update", 1); ("report", 1)])
  /\ listed techSources "https://overreacted.io/rss.com" = true
  /\ listed techSources "https://signal.org/blog/rss.com" = true
  /\ listed techSources "https://githubengineering.com/atom.com" = true
  /\ listed techSources "http://www.fastcodesign.com/rss.com" = true
  /\ unlistedSources
     = ["http://www.fastcodesign.com/rss.xml";
        "https://githubengineering.com/atom.xml";
        "https://overreacted.io/rss.xml";
        "https://signal.org/blog/rss.xml"].
Proof.
  split; [|repeat split; vm_compute; reflexivity].
  intros source H. cbn [In] in H.
  repeat (destruct H as [<-|H];
          [repeat split; try (vm_compute; reflexivity);
           try (vm_compute; discriminate);
           cbn [In RssSources]; tauto|]).
  contradiction.
Qed.

(* ===================================================================== *)
(** * Article table                                                       *)
(* ===================================================================== *)

Lemma hasURL_In article rows :
  In article rows -> hasURL (URL article) rows = true.
Proof.
  intros H. unfold hasURL. apply existsb_exists.
  exists article. split; [exact H | apply String.eqb_refl].
Qed.

Lemma insertOrIgnore_present article rows :
  hasURL (URL article) rows = true -> insertOrIgnore article rows = rows.
Proof. intros H. unfold insertOrIgnore. rewrite H. reflexivity. Qed.

Lemma insertOrIgnore_absent article rows :
  hasURL (URL article) rows = false ->
  insertOrIgnore article rows = (rows ++ [article])%list.
Proof. intros H. unfold insertOrIgnore. rewrite H. reflexivity. Qed.

Lemma hasURL_app url rows rows' :
  hasURL url (rows ++ rows') = hasURL url rows || hasURL url rows'.
Proof. apply existsb_app. Qed.

(** After an insert the article's URL is in the table, whichever way the
    statement went. *)
Lemma insertOrIgnore_hasURL article rows :
  hasURL (URL article) (insertOrIgnore article rows) = true.
Proof.
  unfold insertOrIgnore. destruct (hasURL (URL article) rows) eqn:E.
  - exact E.
  - rewrite hasURL_app. cbn. rewrite String.eqb_refl. apply orb_true_r.
Qed.

(** An insert never removes or changes a stored row. *)
Lemma insertOrIgnore_keeps article rows row :
  In row rows -> In row (insertOrIgnore article rows).
Proof.
  unfold insertOrIgnore. destruct (hasURL (URL article) rows); intros H.
  - exact H.
  - apply in_or_app. left. exact H.
Qed.

Lemma insertOrIgnore_hasURL_keeps article rows url :
  hasURL url rows = true -> hasURL url (insertOrIgnore article rows) = true.
Proof.
  unfold insertOrIgnore. destruct (hasURL (URL article) rows); intros H.
  - exact H.
  - rewrite hasURL_app, H. reflexivity.
Qed.

Lemma hasURL_false_notin url rows :
  hasURL url rows = false -> ~ In url (map URL rows).
Proof.
  unfold hasURL. intros H Hin. apply in_map_iff in Hin as [row [<- Hrow]].
  assert (existsb (fun r => (URL r =? URL row)%string) rows = true) as E
    by (apply existsb_exists; exists row; split;
        [exact Hrow | apply String.eqb_refl]).
  congruence.
Qed.

Lemma insertOrIgnore_unique article rows :
  uniqueURLs rows -> uniqueURLs (insertOrIgnore article rows).
Proof.
  unfold uniqueURLs, insertOrIgnore. intros H.
  destruct (hasURL (URL article) rows) eqn:E; [exact H|].
  rewrite map_app. cbn [map].
  apply NoDup_app_remove_l with (l := []). cbn [app].
  apply Permutation_NoDup with (l := URL article :: map URL rows).
  - apply Permutation_cons_append.
  - constructor; [apply hasURL_false_notin, E | exact H].
Qed.

(** C3.  Inserting an article whose URL is the URL of a stored article is
    a no-op: [InsertArticle] returns no error, the table is the same table
    (so its count is unchanged), and the stored article is still there
    with its title, description, image URL, source URL, published
    timestamp, rank and category. *)
Theorem insert_existing_url_is_noop (A B : NewsArticle) (rows : Table) :
  In B rows -> URL A = URL B ->
  snd (InsertArticle A rows) = None
  /\ fst (InsertArticle A rows) = rows
  /\ GetArticleCount (fst (InsertArticle A rows)) = GetArticleCount rows
  /\ articleByURL (URL B) (fst (InsertArticle A rows))
     = articleByURL (URL B) rows
  /\ (exists B', In B' (fst (InsertArticle A rows))
        /\ URL B' = URL B /\ Title B' = Title B
        /\ Description B' = Description B /\ ImageURL B' = ImageURL B
        /\ SourceURL B' = SourceURL B /\ PublishedAt B' = PublishedAt B
        /\ Rank B' = Rank B /\ Category B' = Category B).
Proof.
  intros HB Hurl.
  assert (fst (InsertArticle A rows) = rows) as E.
  { cbn [InsertArticle fst]. apply insertOrIgnore_present.
    rewrite Hurl. apply hasURL_In, HB. }
  rewrite E. repeat split.
  exists B. repeat split. exact HB.
Qed.

(** A second article under the URL of a stored one leaves the table as
    it is. *)
Lemma insert_existing_url_is_noop_witness :
  fst (InsertArticle sample.sameURL [sample.article]) = [sample.article].
Proof.
  apply (insert_existing_url_is_noop sample.sameURL sample.article
                                     [sample.article]);
    [left; reflexivity | reflexivity].
Defined.

(* ===================================================================== *)
(** * Threat aggregation                                                  *)
(* ===================================================================== *)

Lemma count_cons p rank ranks :
  count p (rank :: ranks) = (if p rank then 1 else 0) + count p ranks.
Proof.
  unfold count. cbn [filter]. destruct (p rank); cbn [List.length]; lia.
Qed.

Lemma count_nonneg p ranks : 0 <= count p ranks.
Proof. unfold count. lia. Qed.

(** The scan adds to each counter the number of ranks of its bucket. *)
Lemma fold_countRank ranks c :
  fold_left countRank ranks c
  = mkCounters (lowRankCount c + count isLow ranks)
               (mediumRankCount c + count isMedium ranks)
               (highRankCount c + count isHigh ranks)
               (totalArticles c + Z.of_nat (List.length ranks)).
Proof.
  revert c. induction ranks as [|rank ranks IH]; intros [l m h t].
  - cbn. f_equal; lia.
  - cbn [fold_left]. rewrite IH, !count_cons.
    unfold countRank, isLow, isMedium, isHigh. cbn [lowRankCount
      mediumRankCount highRankCount totalArticles List.length].
    destruct (rank <? 2) eqn:E2; [|destruct (rank <? 5) eqn:E5];
      cbn [lowRankCount mediumRankCount highRankCount totalArticles];
      repeat match goal with
             | |- context [?a <=? ?b] => destruct (Z.leb_spec a b)
             | H : (_ <? _) = true |- _ => apply Z.ltb_lt in H
             | H : (_ <? _) = false |- _ => apply Z.ltb_ge in H
             end; cbn [andb]; try lia; f_equal; lia.
Qed.

Lemma count_map_Rank p rows :
  count p (map Rank rows) = countIf (fun row => p (Rank row)) rows.
Proof.
  unfold count, countIf. f_equal.
  induction rows as [|row rows IH]; [reflexivity|].
  cbn [map filter]. destruct (p (Rank row)); cbn [List.length]; lia.
Qed.

Lemma countIf_positive p rows :
  0 < countIf p rows <-> existsb p rows = true.
Proof.
  unfold countIf. induction rows as [|row rows IH]; cbn [filter existsb].
  - cbn. split; [lia | discriminate].
  - destruct (p row); cbn [List.length orb]; [split; [reflexivity | lia]|].
    exact IH.
Qed.

Lemma recentRanks_inWindow now rows :
  recentRanks now rows = map Rank (inWindow now rows).
Proof.
  unfold recentRanks, inWindow, twentyFourHoursAgo. f_equal.
  apply filter_ext. intros row. rewrite Z.geb_leb. reflexivity.
Qed.

(** C1.  [GetTodayThreatScore] counts exactly the stored articles whose
    published timestamp is at or after now minus 24 hours; of these it
    counts as low those of rank below 2, as medium those of rank 2 to 4 and
    as high those of rank 5 and more (so rank 2 is medium and rank 5 is
    high); and the level is "No Threats Reported" when the window is
    empty, else "Code Red" when some article is high, else "Attention"
    when some article is medium, else "Business as Usual". *)
Theorem today_threat_score_buckets_and_level (now : Time) (rows : Table) :
  let ts := fst (GetTodayThreatScore now rows) in
  let recent := inWindow now rows in
  snd (GetTodayThreatScore now rows) = None
  /\ TotalArticles ts = Z.of_nat (List.length recent)
  /\ LowRankCount ts = countIf (fun a => Rank a <? 2) recent
  /\ MediumRankCount ts
     = countIf (fun a => (2 <=? Rank a) && (Rank a <? 5)) recent
  /\ HighRankCount ts = countIf (fun a => 5 <=? Rank a) recent
  /\ ThreatLevel ts = levelOfWindow recent
  /\ (isLow 2 = false /\ isMedium 2 = true)
  /\ (isMedium 5 = false /\ isHigh 5 = true).
Proof.
  intros ts recent. subst ts. unfold GetTodayThreatScore.
  rewrite recentRanks_inWindow, fold_countRank. fold recent.
  cbn [fst snd TotalArticles LowRankCount MediumRankCount HighRankCount
       ThreatLevel lowRankCount mediumRankCount highRankCount totalArticles].
  rewrite !count_map_Rank, length_map.
  repeat split.
  unfold levelOf, levelOfWindow.
  cbn [lowRankCount mediumRankCount highRankCount totalArticles].
  rewrite !Z.add_0_l.
  destruct recent as [|a recent']; [reflexivity|].
  set (window := a :: recent').
  replace (Z.of_nat (List.length window) =? 0) with false
    by (symmetry; apply Z.eqb_neq; subst window; cbn [List.length]; lia).
  destruct (existsb (fun a => isHigh (Rank a)) window) eqn:EH.
  - apply countIf_positive in EH. apply Z.gtb_lt in EH. rewrite EH.
    reflexivity.
  - replace (countIf (fun row => isHigh (Rank row)) window >? 0) with false.
    2:{ symmetry. apply not_true_iff_false. intros H. apply Z.gtb_lt in H.
        apply countIf_positive in H. congruence. }
    destruct (existsb (fun a => isMedium (Rank a)) window) eqn:EM.
    + apply countIf_positive in EM. apply Z.gtb_lt in EM. rewrite EM.
      reflexivity.
    + replace (countIf (fun row => isMedium (Rank row)) window >? 0)
        with false; [reflexivity|].
      symmetry. apply not_true_iff_false. intros H. apply Z.gtb_lt in H.
      apply countIf_positive in H. congruence.
Qed.

(* ===================================================================== *)
(** * Article query                                                       *)
(* ===================================================================== *)

(** ** ORDER BY and LIMIT *)

Lemma insertDesc_Permutation key row sorted :
  Permutation (row :: sorted) (insertDesc key row sorted).
Proof.
  induction sorted as [|r sorted IH]; cbn [insertDesc].
  - apply Permutation_refl.
  - destruct (key r <=? key row).
    + apply Permutation_refl.
    + eapply perm_trans; [apply perm_swap|]. apply perm_skip, IH.
Qed.

Lemma orderByDesc_Permutation key rows :
  Permutation rows (orderByDesc key rows).
Proof.
  induction rows as [|row rows IH]; cbn; [constructor|].
  eapply perm_trans; [apply perm_skip, IH|]. apply insertDesc_Permutation.
Qed.

Lemma insertDesc_sorted key row sorted :
  descendingBy key sorted -> descendingBy key (insertDesc key row sorted).
Proof.
  unfold descendingBy. induction 1 as [|r sorted Hs IH Hr]; cbn [insertDesc].
  - repeat constructor.
  - destruct (Z.leb_spec (key r) (key row)) as [Hle|Hgt].
    + constructor; [constructor; assumption|].
      constructor; [exact Hle|].
      eapply Forall_impl; [|exact Hr]. cbn. intros; lia.
    + constructor; [exact IH|].
      eapply Permutation_Forall; [apply insertDesc_Permutation|].
      constructor; [lia | exact Hr].
Qed.

Lemma orderByDesc_sorted key rows : descendingBy key (orderByDesc key rows).
Proof.
  induction rows as [|row rows IH]; cbn.
  - constructor.
  - apply insertDesc_sorted, IH.
Qed.

Lemma In_firstn {A} (x : A) n l : In x (firstn n l) -> In x l.
Proof.
  revert l. induction n as [|n IH]; intros [|y l]; cbn; try tauto.
  intros [->|H]; [left; reflexivity | right; apply IH, H].
Qed.



(** ** LIKE against a pattern without wildcards *)





(** One unfolding of a leading [%]. *)
Lemma like_percent pattern text :
  like (String "%" pattern) text
  = like pattern text
    || match text with
       | EmptyString => false
       | String _ text' => like (String "%" pattern) text'
       end.
Proof. destruct text; reflexivity. Qed.

Lemma like_only_percent text : like "%" text = true.
Proof.
  induction text as [|c text IH]; [reflexivity|].
  rewrite like_percent, IH. apply orb_true_r.
Qed.




(** ** The WHERE clause *)

Lemma nonEmpty_false s : nonEmpty s = false <-> s = "".
Proof. destruct s; cbn; split; congruence. Qed.

Lemma satisfies_app clauses clauses' row :
  satisfies (clauses ++ clauses') row
  = satisfies clauses row && satisfies clauses' row.
Proof. apply forallb_app. Qed.

Lemma satisfies_optional (guard : bool) clause row :
  satisfies (if guard then [clause] else []) row = true
  <-> (guard = false \/ clause row = true).
Proof.
  destruct guard; cbn; rewrite ?andb_true_r; split; auto.
  intros [H|H]; [discriminate | exact H].
Qed.

Lemma selective_filter s :
  nonEmpty s && negb (s =? "all")%string = false <-> s = "" \/ s = "all".
Proof.
  rewrite andb_false_iff, nonEmpty_false, negb_false_iff, String.eqb_eq.
  reflexivity.
Qed.

Lemma satisfies_whereClauses sourceFilter categoryFilter searchFilter
    startDate endDate row :
  satisfies (whereClauses sourceFilter categoryFilter searchFilter
                          startDate endDate) row = true
  <-> qualifies sourceFilter categoryFilter searchFilter startDate endDate row.
Proof.
  unfold whereClauses, qualifies.
  rewrite !satisfies_app, !andb_true_iff, !satisfies_optional.
  rewrite !selective_filter, !negb_false_iff, nonEmpty_false.
  unfold IsZero. rewrite !Z.eqb_eq, String.eqb_eq, String.eqb_eq.
  rewrite Z.geb_le, Z.leb_le. tauto.
Qed.





(** ** Matching up to case *)






(** ** The LIMIT *)





(* ===================================================================== *)
(** * CSV restore                                                         *)
(* ===================================================================== *)

Lemma insertAll_app articles articles' rows :
  insertAll (articles ++ articles') rows
  = insertAll articles' (insertAll articles rows).
Proof. apply fold_left_app. Qed.

Lemma insertAll_hasURL_keeps articles rows url :
  hasURL url rows = true -> hasURL url (insertAll articles rows) = true.
Proof.
  revert rows. induction articles as [|a articles IH]; intros rows H.
  - exact H.
  - cbn [insertAll fold_left]. apply IH, insertOrIgnore_hasURL_keeps, H.
Qed.

(** Every article of the sequence has its URL in the table afterwards. *)
Lemma insertAll_hasURL articles rows article :
  In article articles ->
  hasURL (URL article) (insertAll articles rows) = true.
Proof.
  revert rows. induction articles as [|a articles IH]; intros rows H.
  - contradiction.
  - cbn [insertAll fold_left]. destruct H as [<-|H].
    + apply insertAll_hasURL_keeps, insertOrIgnore_hasURL.
    + apply IH, H.
Qed.

Lemma insertAll_keeps articles rows row :
  In row rows -> In row (insertAll articles rows).
Proof.
  revert rows. induction articles as [|a articles IH]; intros rows H.
  - exact H.
  - cbn [insertAll fold_left]. apply IH, insertOrIgnore_keeps, H.
Qed.

Lemma articleByURL_app url rows rows' :
  articleByURL url (rows ++ rows')
  = match articleByURL url rows with
    | Some row => Some row
    | None => articleByURL url rows'
    end.
Proof.
  unfold articleByURL. induction rows as [|row rows IH]; cbn [app find].
  - reflexivity.
  - destruct (URL row =? url)%string; [reflexivity | exact IH].
Qed.

Lemma articleByURL_None url rows :
  articleByURL url rows = None <-> hasURL url rows = false.
Proof.
  unfold articleByURL, hasURL.
  induction rows as [|row rows IH]; cbn [find existsb].
  - split; reflexivity.
  - destruct (URL row =? url)%string; cbn [orb]; [|exact IH].
    split; discriminate.
Qed.

(** What is stored under a URL after an insert: the row that was there,
    else the inserted article if it carries the URL. *)
Lemma articleByURL_insertOrIgnore url article rows :
  articleByURL url (insertOrIgnore article rows)
  = match articleByURL url rows with
    | Some row => Some row
    | None => if (URL article =? url)%string then Some article else None
    end.
Proof.
  unfold insertOrIgnore. destruct (hasURL (URL article) rows) eqn:E.
  - destruct (articleByURL url rows) eqn:Eu; [reflexivity|].
    apply articleByURL_None in Eu.
    destruct (String.eqb_spec (URL article) url) as [<-|]; congruence.
  - rewrite articleByURL_app. unfold articleByURL at 2. cbn [find].
    reflexivity.
Qed.

Lemma articleByURL_insertAll url articles rows :
  articleByURL url (insertAll articles rows)
  = match articleByURL url rows with
    | Some row => Some row
    | None => articleByURL url articles
    end.
Proof.
  revert rows. induction articles as [|a articles IH]; intros rows.
  - cbn [insertAll fold_left]. destruct (articleByURL url rows); reflexivity.
  - cbn [insertAll fold_left]. fold (insertAll articles (insertOrIgnore a rows)).
    rewrite IH, articleByURL_insertOrIgnore.
    destruct (articleByURL url rows); [reflexivity|].
    unfold articleByURL at 2. cbn [find].
    destruct (URL a =? url)%string; reflexivity.
Qed.

Section RestoreFacts.

Variable ParseRFC3339 : string -> option Time.

(** A row yields no article exactly for one of the three reasons. *)
Lemma articleOfRecord_None record :
  articleOfRecord ParseRFC3339 record = None
  <-> wrongColumnCount record
      \/ unparseableTimestamp ParseRFC3339 record
      \/ unparseableRank record.
Proof.
  unfold articleOfRecord, wrongColumnCount, unparseableTimestamp,
    unparseableRank.
  destruct (Z.eqb_spec (Z.of_nat (List.length record)) 8) as [E|E];
    cbn [negb].
  - destruct (ParseRFC3339 (field record 5)); [|tauto].
    destruct (strconv.Atoi (field record 6)).
    + split; [discriminate|]. intros [H|[H|H]]; try discriminate. lia.
    + tauto.
  - split; [|reflexivity]. intros _. left. lia.
Qed.

(** What the reader hands to the loop once the header has fixed the
    field count at 8. *)
Lemma readRecord_data record :
  csv.readRecord 8 (csv.Fields record)
  = if Z.of_nat (List.length record) =? 8
    then (record, None, 8)
    else (record, Some "wrong number of fields", 8).
Proof.
  unfold csv.readRecord. cbn [Z.gtb Z.compare].
  destruct (Z.of_nat (List.length record) =? 8); reflexivity.
Qed.

Lemma articleOfRecord_length record article :
  articleOfRecord ParseRFC3339 record = Some article ->
  (Z.of_nat (List.length record) =? 8) = true.
Proof.
  unfold articleOfRecord.
  destruct (Z.of_nat (List.length record) =? 8); [reflexivity|].
  discriminate.
Qed.

(** The loop inserts the articles of the valid rows, in file order, and
    nothing else. *)
Lemma importRecords_insertAll lines rows importedCount :
  fst (importRecords ParseRFC3339 8 lines rows importedCount)
  = insertAll (articlesOf ParseRFC3339 lines) rows.
Proof.
  revert rows importedCount.
  induction lines as [|line lines IH]; intros rows importedCount.
  - reflexivity.
  - cbn [importRecords articlesOf flat_map].
    fold (articlesOf ParseRFC3339 lines).
    destruct line as [record|partial].
    + rewrite readRecord_data.
      destruct (articleOfRecord ParseRFC3339 record) as [article|] eqn:E.
      * rewrite (articleOfRecord_length _ _ E), E.
        cbn [app insertAll fold_left]. apply IH.
      * destruct (Z.of_nat (List.length record) =? 8);
          rewrite ?E; apply IH.
    + cbn. apply IH.
Qed.

Lemma articlesOf_app lines lines' :
  articlesOf ParseRFC3339 (lines ++ lines')
  = articlesOf ParseRFC3339 lines ++ articlesOf ParseRFC3339 lines'.
Proof. apply flat_map_app. Qed.

(** A file whose header has 8 columns is imported without error. *)
Lemma LoadArticlesFromCSV_header8 header lines rows :
  List.length header = 8%nat ->
  LoadArticlesFromCSV ParseRFC3339 (Some (csv.Fields header :: lines)) rows
  = (insertAll (articlesOf ParseRFC3339 lines) rows, None).
Proof.
  intros H. unfold LoadArticlesFromCSV, csv.readRecord.
  cbn [Z.gtb Z.compare Z.eqb]. rewrite H. cbn [Z.of_nat].
  change (Z.pos (Pos.of_succ_nat 7)) with 8.
  cbn [expectedHeaders List.length Z.of_nat].
  change (Z.pos (Pos.of_succ_nat 7)) with 8.
  cbn [Z.eqb Pos.eqb negb]. rewrite importRecords_insertAll. reflexivity.
Qed.

(** The valid rows of a file are where its articles come from, and an
    article has the fourth field of its row as URL. *)
Lemma articlesOf_In lines article :
  In article (articlesOf ParseRFC3339 lines) ->
  exists record,
    In (csv.Fields record) lines
    /\ articleOfRecord ParseRFC3339 record = Some article.
Proof.
  unfold articlesOf. intros H. apply in_flat_map in H as (line & Hin & Ha).
  destruct line as [record|partial]; [|contradiction].
  destruct (articleOfRecord ParseRFC3339 record) as [a|] eqn:E;
    [|contradiction].
  destruct Ha as [<-|[]]. exists record. auto.
Qed.

Lemma articleOfRecord_URL record article :
  articleOfRecord ParseRFC3339 record = Some article ->
  URL article = nth 3 record "".
Proof.
  unfold articleOfRecord. destruct (negb _); [discriminate|].
  destruct (ParseRFC3339 _); [|discriminate].
  destruct (strconv.Atoi _); [|discriminate].
  intros [= <-]. reflexivity.
Qed.

(** C5.  A file whose header row does not have 8 columns is rejected
    with an error and the table is left as it was.  Under a header of 8
    columns the import succeeds; a data row with a wrong column count,
    an unparseable timestamp or an unparseable rank is skipped, the
    import going on as if the row were not in the file; and every other
    row is inserted (insert-if-absent, in file order), so its URL is in
    the table afterwards: a row of the eight fields title, description,
    image URL, URL, source URL, timestamp, rank and category whose
    timestamp and rank parse is stored as the article with these fields,
    the parsed timestamp and the parsed rank, unless the table or an
    earlier row of the file already has its URL. *)
Theorem import_rejects_bad_header_and_skips_bad_rows :
  (forall header lines rows,
     List.length header <> 8%nat ->
     snd (LoadArticlesFromCSV ParseRFC3339
            (Some (csv.Fields header :: lines)) rows) <> None
     /\ fst (LoadArticlesFromCSV ParseRFC3339
               (Some (csv.Fields header :: lines)) rows) = rows)
  /\ (forall header before record after rows,
        List.length header = 8%nat ->
        wrongColumnCount record
        \/ unparseableTimestamp ParseRFC3339 record
        \/ unparseableRank record ->
        LoadArticlesFromCSV ParseRFC3339
          (Some (csv.Fields header :: before ++ csv.Fields record :: after))
          rows
        = LoadArticlesFromCSV ParseRFC3339
            (Some (csv.Fields header :: before ++ after)) rows
        /\ snd (LoadArticlesFromCSV ParseRFC3339
                  (Some (csv.Fields header
                           :: before ++ csv.Fields record :: after))
                  rows) = None)
  /\ (forall header lines rows,
        List.length header = 8%nat ->
        snd (LoadArticlesFromCSV ParseRFC3339
               (Some (csv.Fields header :: lines)) rows) = None
        /\ fst (LoadArticlesFromCSV ParseRFC3339
                  (Some (csv.Fields header :: lines)) rows)
           = insertAll (articlesOf ParseRFC3339 lines) rows
        /\ (forall record,
              In (csv.Fields record) lines ->
              ~ wrongColumnCount record ->
              ~ unparseableTimestamp ParseRFC3339 record ->
              ~ unparseableRank record ->
              exists article,
                articleOfRecord ParseRFC3339 record = Some article
                /\ hasURL (URL article)
                     (fst (LoadArticlesFromCSV ParseRFC3339
                             (Some (csv.Fields header :: lines)) rows))
                   = true)
        /\ (forall row, In row rows ->
              In row (fst (LoadArticlesFromCSV ParseRFC3339
                             (Some (csv.Fields header :: lines)) rows))))
  /\ (forall header before after rows
             title description imageURL url sourceURL publishedAt rank
             category t n,
        List.length header = 8%nat ->
        ParseRFC3339 publishedAt = Some t ->
        strconv.Atoi rank = Some n ->
        let table :=
          fst (LoadArticlesFromCSV ParseRFC3339
                 (Some (csv.Fields header
                          :: before
                             ++ csv.Fields [title; description; imageURL; url;
                                            sourceURL; publishedAt; rank;
                                            category]
                             :: after))
                 rows) in
        let stored :=
          mkNewsArticle title description imageURL url sourceURL t n
                        category in
        hasURL url table = true
        /\ (hasURL url rows = false ->
            (forall earlier, In (csv.Fields earlier) before ->
               nth 3 earlier "" <> url) ->
            In stored table /\ articleByURL url table = Some stored)).
Proof.
  split; [|split; [|split]].
  - intros header lines rows H.
    unfold LoadArticlesFromCSV, csv.readRecord.
    cbn [Z.gtb Z.compare Z.eqb expectedHeaders List.length].
    replace (Z.of_nat (List.length header) =? Z.of_nat 8) with false
      by (symmetry; apply Z.eqb_neq; lia).
    cbn [negb fst snd]. split; [discriminate | reflexivity].
  - intros header before record after rows H Hbad.
    rewrite !LoadArticlesFromCSV_header8 by exact H.
    rewrite !articlesOf_app. cbn [articlesOf flat_map].
    apply articleOfRecord_None in Hbad. rewrite Hbad.
    cbn [app snd]. split; reflexivity.
  - intros header lines rows H.
    rewrite !LoadArticlesFromCSV_header8 by exact H. cbn [fst snd].
    split; [reflexivity|]. split; [reflexivity|]. split.
    + intros record Hin H1 H2 H3.
      destruct (articleOfRecord ParseRFC3339 record) as [article|] eqn:E.
      * exists article. split; [reflexivity|].
        apply insertAll_hasURL. unfold articlesOf. apply in_flat_map.
        exists (csv.Fields record). split; [exact Hin|].
        rewrite E. left. reflexivity.
      * apply articleOfRecord_None in E. tauto.
    + intros row Hrow. apply insertAll_keeps, Hrow.
  - intros header before after rows title description imageURL url
      sourceURL publishedAt rank category t n H8 Ht Hn.
    cbn zeta. rewrite LoadArticlesFromCSV_header8 by exact H8. cbn [fst].
    set (stored := mkNewsArticle title description imageURL url sourceURL
                                 t n category).
    assert (articleOfRecord ParseRFC3339
              [title; description; imageURL; url; sourceURL; publishedAt;
               rank; category] = Some stored) as Hrec.
    { unfold articleOfRecord, field. cbn [List.length Z.of_nat nth].
      cbn [Pos.of_succ_nat Pos.succ Z.eqb Pos.eqb negb].
      rewrite Ht, Hn. reflexivity. }
    rewrite articlesOf_app. cbn [articlesOf flat_map].
    fold (articlesOf ParseRFC3339 after). rewrite Hrec. cbn [app].
    split.
    + apply (insertAll_hasURL _ rows stored).
      apply in_or_app. right. left. reflexivity.
    + intros Hfresh Hfirst.
      assert (articleByURL url
                (insertAll (articlesOf ParseRFC3339 before
                            ++ stored :: articlesOf ParseRFC3339 after) rows)
              = Some stored) as Hlookup.
      { rewrite articleByURL_insertAll.
        apply articleByURL_None in Hfresh. rewrite Hfresh.
        rewrite articleByURL_app.
        rewrite (proj2 (articleByURL_None url
                          (articlesOf ParseRFC3339 before))).
        - unfold articleByURL. cbn [find URL stored].
          rewrite String.eqb_refl. reflexivity.
        - apply not_true_iff_false. intros Hhas.
          unfold hasURL in Hhas. apply existsb_exists in Hhas
            as (a & Ha & Hurl).
          apply String.eqb_eq in Hurl.
          destruct (articlesOf_In _ _ Ha) as (earlier & Hin & He).
          apply (Hfirst earlier Hin).
          rewrite <- Hurl. symmetry. apply (articleOfRecord_URL _ _ He). }
      split; [|exact Hlookup].
      unfold articleByURL in Hlookup. apply find_some in Hlookup.
      apply Hlookup.
Qed.

End RestoreFacts.

(** The restore of a backup with an unreadable date between two good rows
    equals the restore of the backup without that row; the second article
    of the backup is in the table with the fields, the timestamp and the
    rank of its row; and a file with a three-column header is refused. *)
Lemma import_rejects_bad_header_and_skips_bad_rows_witness :
  (match sample.articlesCSV with
   | header :: first :: others =>
       LoadArticlesFromCSV sample.parseRFC3339Z
         (Some (header :: [first] ++ csv.Fields sample.badDateRow :: others))
         []
   | _ => ([], None)
   end
   = LoadArticlesFromCSV sample.parseRFC3339Z (Some sample.articlesCSV) [])
  /\ In (mkNewsArticle "Test Article 2" "Description for article 2"
                       "https://img.example.com/2.jpg"
                       "https://example.com/2" "https://source.example.com"
                       63841001400 3 "Tech")
        (fst (LoadArticlesFromCSV sample.parseRFC3339Z
                (Some sample.articlesCSV) []))
  /\ fst (LoadArticlesFromCSV sample.parseRFC3339Z
            (Some sample.invalidCSV) [sample.article])
     = [sample.article].
Proof.
  destruct (import_rejects_bad_header_and_skips_bad_rows
              sample.parseRFC3339Z) as (Hheader & Hskip & _ & Hstored).
  split; [|split].
  - apply (Hskip expectedHeaders); [reflexivity|].
    right. left. reflexivity.
  - apply (Hstored expectedHeaders
             [csv.Fields ["Test Article 1"; "Description for article 1";
                          "https://img.example.com/1.jpg";
                          "https://example.com/1";
                          "https://source.example.com";
                          "2024-01-15T10:30:00Z"; "5"; "Cybersecurity"]]
             [csv.Fields ["Test Article 3"; "Description for article 3"; "";
                          "https://example.com/3";
                          "https://source.example.com";
                          "2024-01-17T12:30:00Z"; "1"; "General"]]
             [] "Test Article 2" "Description for article 2"
             "https://img.example.com/2.jpg" "https://example.com/2"
             "https://source.example.com" "2024-01-16T11:30:00Z" "3" "Tech"
             63841001400 3);
      try reflexivity.
    intros earlier [[= <-]|[]]. cbn. discriminate.
  - apply (Hheader ["Col1"; "Col2"; "Col3"]). cbn. lia.
Defined.

(* ===================================================================== *)
(** * The worker of a source                                              *)
(* ===================================================================== *)

Lemma calculateRank_ext a b :
  Title a = Title b -> Description a = Description b ->
  Category a = Category b -> calculateRank a = calculateRank b.
Proof. unfold calculateRank. intros -> -> ->. reflexivity. Qed.

Section WorkerFacts.

Variable ParseURL : string -> option gofeed.Feed.
Variable DetectLanguageOf : string -> lingua.Language * bool.
Variable Sanitize : string -> string.
Variable Now : nat -> Time.

Local Abbreviation process := (processItem DetectLanguageOf Sanitize Now).
Local Abbreviation processAll :=
  (processItems DetectLanguageOf Sanitize Now).
Local Abbreviation worker :=
  (fetchWorker ParseURL DetectLanguageOf Sanitize Now).

(** The article a worker builds from an item it does not skip. *)
Lemma processItem_Some source feed item calls article :
  fst (process source feed item calls) = Some article ->
  Title article = gofeed.Title item
  /\ Description article = Sanitize (gofeed.Description item)
  /\ URL article = gofeed.Link item
  /\ SourceURL article = source
  /\ Category article = getCategoryForSource source
  /\ Rank article = calculateRank article
  /\ ImageURL article
     = match gofeed.Image item with
       | Some image => gofeed.URL image
       | None => ""
       end
  /\ PublishedAt article
     = match gofeed.PublishedParsed item with
       | Some t => t
       | None =>
           match gofeed.FeedPublishedParsed feed with
           | Some t => t
           | None => Now calls
           end
       end.
Proof.
  unfold processItem.
  destruct (DetectLanguageOf _) as [lang confident].
  destruct (lingua.isEnglish lang); cbn [negb]; [|discriminate].
  destruct (gofeed.Image item) as [image|],
           (gofeed.PublishedParsed item) as [t|];
    [| destruct (gofeed.FeedPublishedParsed feed) as [t|]
     | | destruct (gofeed.FeedPublishedParsed feed) as [t|]];
    cbn [fst]; intros [= <-]; cbn; repeat split; reflexivity.
Qed.

(** [time.Now()] is read exactly when neither the item nor the feed
    carries a date. *)
Lemma processItem_clock source feed item calls article :
  fst (process source feed item calls) = Some article ->
  snd (process source feed item calls)
  = match gofeed.PublishedParsed item, gofeed.FeedPublishedParsed feed with
    | None, None => S calls
    | _, _ => calls
    end.
Proof.
  unfold processItem.
  destruct (DetectLanguageOf _) as [lang confident].
  destruct (lingua.isEnglish lang); cbn [negb]; [|discriminate].
  destruct (gofeed.PublishedParsed item), (gofeed.FeedPublishedParsed feed);
    reflexivity.
Qed.

(** Every article a worker sends was built from an item of its feed. *)
Lemma processItems_In source feed items calls article :
  In article (fst (processAll source feed items calls)) ->
  exists item calls',
    In item items
    /\ fst (process source feed item calls') = Some article.
Proof.
  revert calls. induction items as [|item items IH]; intros calls.
  - cbn. contradiction.
  - cbn [processItems].
    destruct (process source feed item calls) as [sent calls1] eqn:E1.
    destruct (processAll source feed items calls1) as [rest calls2] eqn:E2.
    cbn [fst]. intros H.
    assert (In article rest ->
            exists item0 calls', In item0 (item :: items)
              /\ fst (process source feed item0 calls') = Some article)
      as Hrest.
    { intros Hr. destruct (IH calls1) as (item0 & calls' & Hi & Hp).
      - rewrite E2. exact Hr.
      - exists item0, calls'. split; [right; exact Hi | exact Hp]. }
    destruct sent as [a|]; [|auto].
    destruct H as [<-|H]; [|auto].
    exists item, calls. split; [left; reflexivity|]. rewrite E1. reflexivity.
Qed.

Lemma fetchWorker_In source calls article :
  In article (fst (worker source calls)) ->
  exists feed item calls',
    ParseURL source = Some feed
    /\ In item (gofeed.Items feed)
    /\ fst (process source feed item calls') = Some article.
Proof.
  unfold fetchWorker.
  destruct (ParseURL source) as [feed|]; [|cbn; contradiction].
  intros H. apply processItems_In in H as (item & calls' & Hi & Hp).
  exists feed, item, calls'. auto.
Qed.

(** C10.  The article built from a feed item has as published timestamp
    the item's own parsed timestamp when it has one, else the
    feed-level parsed timestamp when the feed has one, else the current
    time; and as image URL the URL of the item's image when the item has
    an image, else the empty string.  This holds of every article a
    worker sends to the writer. *)
Theorem built_article_timestamp_and_image source feed item calls article :
  fst (process source feed item calls) = Some article ->
  (forall t, gofeed.PublishedParsed item = Some t -> PublishedAt article = t)
  /\ (forall t, gofeed.PublishedParsed item = None ->
        gofeed.FeedPublishedParsed feed = Some t -> PublishedAt article = t)
  /\ (gofeed.PublishedParsed item = None ->
      gofeed.FeedPublishedParsed feed = None ->
      PublishedAt article = Now calls
      /\ snd (process source feed item calls) = S calls)
  /\ (forall image, gofeed.Image item = Some image ->
        ImageURL article = gofeed.URL image)
  /\ (gofeed.Image item = None -> ImageURL article = "")
  /\ (forall src start sent,
        In sent (fst (worker src start)) ->
        exists feed' item' calls',
          ParseURL src = Some feed' /\ In item' (gofeed.Items feed')
          /\ ImageURL sent
             = match gofeed.Image item' with
               | Some image => gofeed.URL image
               | None => ""
               end
          /\ PublishedAt sent
             = match gofeed.PublishedParsed item' with
               | Some t => t
               | None =>
                   match gofeed.FeedPublishedParsed feed' with
                   | Some t => t
                   | None => Now calls'
                   end
               end).
Proof.
  intros H.
  pose proof (processItem_Some _ _ _ _ _ H)
    as (_ & _ & _ & _ & _ & _ & Himg & Hpub).
  pose proof (processItem_clock _ _ _ _ _ H) as Hclock.
  split; [intros t E; rewrite Hpub, E; reflexivity|].
  split; [intros t E1 E2; rewrite Hpub, E1, E2; reflexivity|].
  split; [intros E1 E2; rewrite Hpub, Hclock, E1, E2; split; reflexivity|].
  split; [intros image E; rewrite Himg, E; reflexivity|].
  split; [intros E; rewrite Himg, E; reflexivity|].
  intros src start sent Hsent.
  apply fetchWorker_In in Hsent as (feed' & item' & calls' & Hf & Hi & Hp).
  apply processItem_Some in Hp as (_ & _ & _ & _ & _ & _ & Himg' & Hpub').
  exists feed', item', calls'. auto.
Qed.

(** The rank of a built article is the scorer's output for the fields
    it is stored with, and is not negative. *)
Lemma built_rank article :
  builtByPipeline DetectLanguageOf Sanitize Now article ->
  Rank article = calculateRank article /\ 0 <= Rank article.
Proof.
  intros (source & feed & item & calls & H).
  apply processItem_Some in H as (_ & _ & _ & _ & _ & Hrank & _).
  split; [exact Hrank|]. rewrite Hrank. apply calculateRank_bounds.
Qed.

End WorkerFacts.

(** The sample item has no date of its own, so the built article carries
    the date of the feed; and it has no image. *)
Lemma built_article_timestamp_and_image_witness :
  fst (processItem sample.detectEnglish sample.sanitizePlain sample.clock
                   "https://www.bleepingcomputer.com/feed/"
                   sample.feed sample.item 0) = Some sample.built
  /\ PublishedAt sample.built = 63799990000
  /\ ImageURL sample.built = "".
Proof.
  split; [reflexivity|].
  destruct (built_article_timestamp_and_image
              (fun _ => Some sample.feed)
              sample.detectEnglish sample.sanitizePlain sample.clock
              "https://www.bleepingcomputer.com/feed/" sample.feed
              sample.item 0 sample.built eq_refl)
    as (_ & Hfeed & _ & _ & Hnoimg & _).
  split; [apply Hfeed; reflexivity | apply Hnoimg; reflexivity].
Defined.

(* ===================================================================== *)
(** * One caching run                                                     *)
(* ===================================================================== *)

Lemma Forall_setWorker (Q : Worker -> Prop) i w ws :
  Forall Q ws -> Q w -> Forall Q (setWorker i w ws).
Proof.
  intros H Hw. revert i.
  induction H as [|w0 ws H0 Hws IH]; intros [|i]; cbn [setWorker];
    constructor; auto.
Qed.

Lemma Forall_nth_error {A} (Q : A -> Prop) l i x :
  Forall Q l -> nth_error l i = Some x -> Q x.
Proof.
  intros H E. apply nth_error_In in E. revert x E. apply Forall_forall, H.
Qed.

(** A worker that still has something to do keeps [wg.Wait()] blocked. *)
Lemma sending_not_finished ws i toSend :
  nth_error ws i = Some (Sending toSend) -> forallb isFinished ws = false.
Proof.
  intros E. apply not_true_iff_false. intros H.
  rewrite forallb_forall in H. apply nth_error_In in E.
  specialize (H _ E). discriminate.
Qed.

Lemma runInvariant_start sends rows : runInvariant (startRun sends rows).
Proof.
  unfold runInvariant, startRun. cbn.
  repeat split; try discriminate; try lia.
  intros [H|H]; discriminate.
Qed.

Lemma runInvariant_step r r' : step r r' -> runInvariant r -> runInvariant r'.
Proof.
  intros Hstep (Hclosed & Hatclose & Hlog & Hexit & Hcap).
  assert (writer r = Exited -> articleChan r = []) as Hexit1
    by (intros E; apply Hexit, E).
  assert (writer r = Exited -> closed r = true) as Hexit2
    by (intros E; apply Hexit, E).
  assert (forall i toSend,
            nth_error (workers r) i = Some (Sending toSend) ->
            closed r = false /\ caller r <> AtClose) as Hbusy.
  { intros i toSend Hw. apply sending_not_finished in Hw. split.
    - destruct (closed r); [rewrite Hclosed in Hw|]; congruence.
    - intros E. rewrite Hatclose in Hw by exact E. discriminate. }
  destruct Hstep as
    [r i article toSend Hw Hroom | r i Hw | r Hc Hall | r Hc | r Hc
     | r article queued Hwr Hch | r article Hwr | r Hwr Hch Hcl];
    try (destruct (Hbusy _ _ Hw) as [Hopen Hnotclose]);
    unfold runInvariant; cbn [workers articleChan closed caller writer table];
    repeat split; intros;
    repeat match goal with
           | H : _ \/ _ |- _ => destruct H
           | H : writer _ = Exited |- _ =>
               pose proof (Hexit1 H); pose proof (Hexit2 H); clear H
           end;
    try discriminate; try congruence; auto.
  - rewrite length_app. cbn [List.length]. unfold capacity in *. lia.
  - rewrite Hch in Hcap. cbn [List.length] in Hcap. lia.
Qed.

Lemma reachable_runInvariant sends rows r :
  reachable sends rows r -> runInvariant r.
Proof.
  unfold reachable. induction 1 as [|r r' Hstep Hreach IH].
  - apply runInvariant_start.
  - eapply runInvariant_step; eassumption.
Qed.

(** From a closed channel the writer alone empties the buffer: it inserts
    what it holds and what is queued, in order, and leaves its loop. *)
Lemma writer_drains queued ws c rows :
  clos_refl_trans Run step
    (mkRun ws queued true c Receiving rows)
    (mkRun ws [] true c Exited (insertAll queued rows)).
Proof.
  revert rows. induction queued as [|article queued IH]; intros rows.
  - apply rt_step.
    exact (step_exit (mkRun ws [] true c Receiving rows)
                     eq_refl eq_refl eq_refl).
  - eapply rt_trans; [apply rt_step|eapply rt_trans; [apply rt_step|]].
    + exact (step_receive (mkRun ws (article :: queued) true c Receiving rows)
                          article queued eq_refl eq_refl).
    + exact (step_insert (mkRun ws queued true c (Inserting article) rows)
                         article eq_refl).
    + cbn [workers articleChan closed caller writer table InsertArticle fst
           insertAll fold_left]. apply IH.
Qed.

Lemma drain_after_close r :
  runInvariant r -> closed r = true ->
  exists r',
    clos_refl_trans Run step r r'
    /\ inFlight r' = [] /\ writer r' = Exited
    /\ table r' = insertAll (inFlight r) (table r)
    /\ caller r' = caller r /\ workers r' = workers r.
Proof.
  intros (_ & _ & _ & Hexit & _) Hcl.
  destruct r as [ws queued cl c wr rows]. cbn in Hcl, Hexit. subst cl.
  destruct wr as [|article|].
  - exists (mkRun ws [] true c Exited (insertAll queued rows)).
    split; [apply writer_drains|]. repeat split.
  - exists (mkRun ws [] true c Exited
                  (insertAll queued (insertOrIgnore article rows))).
    split; [|repeat split].
    eapply rt_trans; [apply rt_step|apply writer_drains].
    exact (step_insert (mkRun ws queued true c (Inserting article) rows)
                       article eq_refl).
  - destruct (Hexit eq_refl) as [-> _].
    exists (mkRun ws [] true c Exited rows).
    split; [apply rt_refl | repeat split].
Qed.

(** C2 (as the code has it).  A run reports completion only after every
    fetch worker has finished and the article channel has been closed, so
    nothing more is submitted afterwards; at that moment the channel holds
    at most its capacity of 100 articles, and the writer, which is not
    waited for, goes on to insert exactly these queued articles, in
    order, and then leaves its loop. *)
Theorem completion_after_workers_and_close sends rows r :
  reachable sends rows r -> reportedCompletion r ->
  forallb isFinished (workers r) = true
  /\ closed r = true
  /\ (List.length (articleChan r) <= 100)%nat
  /\ exists r',
       clos_refl_trans Run step r r'
       /\ reportedCompletion r'
       /\ inFlight r' = [] /\ writer r' = Exited
       /\ table r' = insertAll (inFlight r) (table r).
Proof.
  intros Hreach Hdone. unfold reportedCompletion in *.
  pose proof (reachable_runInvariant _ _ _ Hreach) as Hinv.
  pose proof Hinv as (Hclosed & _ & Hlog & _ & Hcap).
  assert (closed r = true) as Hcl by (apply Hlog; right; exact Hdone).
  split; [apply Hclosed, Hcl|]. split; [exact Hcl|]. split; [exact Hcap|].
  destruct (drain_after_close r Hinv Hcl)
    as (r' & Hsteps & Hempty & Hexited & Htable & Hcaller & _).
  exists r'. rewrite Hcaller. auto.
Qed.

(** The states of the run of one worker with one article, up to the log
    line: the article is sent, the worker finishes, the caller passes
    [wg.Wait()], closes the channel and logs, and the writer has not yet
    taken a step. *)
Lemma one_article_run_reaches_report :
  reachable [[sample.article]] []
    (mkRun [Finished] [sample.article] true Returned Receiving []).
Proof.
  unfold reachable, startRun. cbn [map].
  eapply Relation_Operators.rtn1_trans;
    [exact (step_log (mkRun [Finished] [sample.article] true AtLog
                            Receiving []) eq_refl)|].
  eapply Relation_Operators.rtn1_trans;
    [exact (step_close (mkRun [Finished] [sample.article] false AtClose
                              Receiving []) eq_refl)|].
  eapply Relation_Operators.rtn1_trans;
    [exact (step_wait (mkRun [Finished] [sample.article] false AtWait
                             Receiving []) eq_refl eq_refl)|].
  eapply Relation_Operators.rtn1_trans;
    [exact (step_done (mkRun [Sending []] [sample.article] false AtWait
                             Receiving []) 0 eq_refl)|].
  eapply Relation_Operators.rtn1_trans;
    [exact (step_send (mkRun [Sending [sample.article]] [] false AtWait
                             Receiving []) 0 sample.article [] eq_refl
                      (Nat.lt_0_succ 99))|].
  apply rtn1_refl.
Qed.

(** C2, counterexample.  In the run of one source with one accepted
    article there is a state in which completion has been reported while
    the article is still queued and the table is still empty. *)
Lemma completion_reported_with_article_in_flight :
  exists r,
    reachable [[sample.article]] [] r
    /\ reportedCompletion r
    /\ inFlight r = [sample.article]
    /\ table r = []
    /\ writer r <> Exited.
Proof.
  exists (mkRun [Finished] [sample.article] true Returned Receiving []).
  split; [apply one_article_run_reaches_report|].
  repeat split. discriminate.
Qed.

(** The report of the one-article run comes after the worker has finished
    and the channel is closed, and the writer then inserts the article. *)
Lemma completion_after_workers_and_close_witness :
  exists r',
    clos_refl_trans Run step
      (mkRun [Finished] [sample.article] true Returned Receiving []) r'
    /\ reportedCompletion r'
    /\ inFlight r' = [] /\ writer r' = Exited
    /\ table r' = [sample.article].
Proof.
  apply (completion_after_workers_and_close [[sample.article]] []
           (mkRun [Finished] [sample.article] true Returned Receiving [])
           one_article_run_reaches_report eq_refl).
Defined.

(** ** Ranks in the table *)

Section RunPreserves.

Variable P : NewsArticle -> Prop.

Lemma insertOrIgnore_Forall article rows :
  P article -> Forall P rows -> Forall P (insertOrIgnore article rows).
Proof.
  intros Ha Hrows. unfold insertOrIgnore.
  destruct (hasURL (URL article) rows); [exact Hrows|].
  apply Forall_app. split; [exact Hrows | repeat constructor; exact Ha].
Qed.

Lemma runHolds_step r r' : step r r' -> runHolds P r -> runHolds P r'.
Proof.
  intros Hstep (Hws & Hch & Hwr & Htab).
  destruct Hstep as
    [r i article toSend Hw Hroom | r i Hw | r Hc Hall | r Hc | r Hc
     | r article queued Hwriter Hqueue | r article Hwriter
     | r Hwriter Hqueue Hcl];
    unfold runHolds; cbn [workers articleChan closed caller writer table];
    refine (conj _ (conj _ (conj _ _))); try assumption; try exact I.
  - pose proof (Forall_nth_error _ _ _ _ Hws Hw) as Hsend.
    cbn in Hsend. inversion Hsend; subst.
    apply Forall_setWorker; assumption.
  - pose proof (Forall_nth_error _ _ _ _ Hws Hw) as Hsend.
    cbn in Hsend. inversion Hsend; subst.
    apply Forall_app. split; [assumption | repeat constructor; assumption].
  - apply Forall_setWorker; [assumption | exact I].
  - rewrite Hqueue in Hch. inversion Hch; assumption.
  - rewrite Hqueue in Hch. inversion Hch; assumption.
  - rewrite Hwriter in Hwr.
    cbn [InsertArticle fst]. apply insertOrIgnore_Forall; assumption.
Qed.


(** A property of articles that holds of everything the workers send
    and of the rows present at the start holds of every row of every
    state of the run. *)
Lemma reachable_table_Forall sends rows r :
  Forall (Forall P) sends -> Forall P rows ->
  reachable sends rows r -> Forall P (table r).
Proof.
  intros Hsends Hrows Hreach.
  assert (runHolds P r) as H; [|apply H].
  unfold reachable in Hreach. induction Hreach as [|r r' Hstep _ IH].
  - unfold runHolds, startRun. cbn. repeat split; auto.
    apply Forall_map. exact Hsends.
  - eapply runHolds_step; eassumption.
Qed.

End RunPreserves.

Lemma rankInvariant_Forall rows :
  rankInvariant rows
  <-> Forall (fun a => Rank a = calculateRank a /\ 0 <= Rank a) rows.
Proof. unfold rankInvariant. rewrite Forall_forall. reflexivity. Qed.

(** C6 (as the code has it).  Every article the ingestion pipeline
    inserts has as rank the scorer's output for its stored category, title
    and description, a non-negative integer: this holds of every table
    reached by caching runs, and a caching run keeps it for a table that
    has it.  An article inserted by CSV restore carries the integer read
    from the Rank column of its row. *)
Theorem ingested_rank_is_scorer_output
    (ParseRFC3339 : string -> option Time)
    (DetectLanguageOf : string -> lingua.Language * bool)
    (Sanitize : string -> string) (Now : nat -> Time) :
  (forall rows,
     Ingested DetectLanguageOf Sanitize Now rows -> rankInvariant rows)
  /\ (forall sends rows r,
        Forall (Forall (builtByPipeline DetectLanguageOf Sanitize Now)) sends ->
        rankInvariant rows ->
        reachable sends rows r -> rankInvariant (table r))
  /\ (forall record article,
        articleOfRecord ParseRFC3339 record = Some article ->
        strconv.Atoi (field record 6) = Some (Rank article)).
Proof.
  split; [|split].
  - induction 1 as [|rows article Hrows IH Hbuilt].
    + intros a [].
    + apply rankInvariant_Forall. cbn [InsertArticle fst].
      apply insertOrIgnore_Forall.
      * eapply built_rank, Hbuilt.
      * apply rankInvariant_Forall, IH.
  - intros sends rows r Hsends Hrows Hreach.
    apply rankInvariant_Forall.
    eapply reachable_table_Forall; [|apply rankInvariant_Forall, Hrows
                                    |exact Hreach].
    eapply Forall_impl; [|exact Hsends]. intros toSend.
    apply Forall_impl. intros a. apply built_rank.
  - intros record article. unfold articleOfRecord.
    destruct (negb _); [discriminate|].
    destruct (ParseRFC3339 _); [|discriminate].
    destruct (strconv.Atoi _); [|discriminate].
    intros [= <-]. reflexivity.
Qed.

(** The table that holds the article built from the sample item has the
    rank invariant. *)
Lemma ingested_rank_is_scorer_output_witness : rankInvariant [sample.built].
Proof.
  apply (ingested_rank_is_scorer_output
           sample.parseRFC3339Z sample.detectEnglish sample.sanitizePlain
           sample.clock).
  apply (ingested_insert sample.detectEnglish sample.sanitizePlain
                         sample.clock [] sample.built).
  - apply ingested_empty.
  - exists "https://www.bleepingcomputer.com/feed/", sample.feed,
      sample.item, 0%nat. reflexivity.
Defined.

(** C6, counterexample.  The restore of a backup whose row carries the
    rank -5 leaves in the table an article whose rank is negative and is
    not the scorer's output for its category and text, which is 0. *)
Lemma restored_rank_is_not_scorer_output :
  Stored sample.parseRFC3339Z sample.detectEnglish sample.sanitizePlain
         sample.clock sample.negativeRankTable
  /\ ~ rankInvariant sample.negativeRankTable
  /\ exists a,
       In a sample.negativeRankTable
       /\ Rank a = -5 /\ calculateRank a = 0.
Proof.
  split; [|split].
  - exact (stored_restore sample.parseRFC3339Z sample.detectEnglish
             sample.sanitizePlain sample.clock
             (Some sample.negativeRankCSV)).
  - intros H. destruct (H sample.negativeRankArticle) as [_ Hneg].
    + left. reflexivity.
    + cbn in Hneg. lia.
  - exists sample.negativeRankArticle.
    split; [left; reflexivity|]. split; reflexivity.
Qed.

(* ===================================================================== *)
(** * Further properties of the scorer and the classifier                 *)
(* ===================================================================== *)

Lemma totalWeight_zero keywords :
  (forall kw, In kw keywords -> 0 < snd kw) ->
  totalWeight keywords = 0 -> keywords = [].
Proof.
  intros Hpos H. destruct keywords as [|kw keywords]; [reflexivity|].
  exfalso. rewrite totalWeight_cons in H.
  assert (0 < snd kw) by (apply Hpos; left; reflexivity).
  assert (0 <= totalWeight (matched "" keywords) <= totalWeight keywords)
    by (apply totalWeight_matched_bounds; intros; apply Hpos; right;
        assumption).
  lia.
Qed.

Lemma matched_positive content keywords :
  (forall kw, In kw keywords -> 0 < snd kw) ->
  forall kw, In kw (matched content keywords) -> 0 < snd kw.
Proof.
  intros Hpos kw H. apply filter_In in H as [H _]. apply Hpos, H.
Qed.

Lemma matched_none content keywords :
  (forall kw, In kw keywords -> Contains content (fst kw) = false) ->
  matched content keywords = [].
Proof.
  unfold matched. induction keywords as [|kw keywords IH]; intros Hnone.
  - reflexivity.
  - cbn [filter]. rewrite (Hnone kw (or_introl eq_refl)).
    apply IH. intros kw' H. apply Hnone. right. exact H.
Qed.

(** The rank of an article lies between 0 and the sum of its category's
    table: 80 for Cybersecurity, 78 for Tech and 3 for every other
    category; and it is 0 exactly when no keyword of the table occurs in
    the lowercase text. *)
Theorem rank_range_and_zero (article : NewsArticle) :
  0 <= calculateRank article
  /\ calculateRank article
     <= (if (Category article =? "Cybersecurity")%string then 80
         else if (Category article =? "Tech")%string then 78 else 3)
  /\ (calculateRank article = 0
      <-> forall kw, In kw (keywordsFor (Category article)) ->
            Contains (contentOf (Title article) (Description article))
                     (fst kw) = false).
Proof.
  rewrite calculateRank_matched.
  set (content := contentOf (Title article) (Description article)).
  pose proof (totalWeight_matched_bounds content
                (keywordsFor (Category article))
                (keywordsFor_positive (Category article))) as [H0 Hmax].
  split; [exact H0|]. split.
  - eapply Z.le_trans; [exact Hmax|]. unfold keywordsFor.
    destruct (Category article =? "Cybersecurity")%string;
      [|destruct (Category article =? "Tech")%string];
      vm_compute; discriminate.
  - split.
    + intros Hz kw Hin.
      apply totalWeight_zero in Hz;
        [|apply matched_positive, keywordsFor_positive].
      destruct (Contains content (fst kw)) eqn:E; [|reflexivity].
      assert (In kw (matched content (keywordsFor (Category article)))) as Hm
        by (apply filter_In; split; assumption).
      rewrite Hz in Hm. contradiction.
    + intros Hnone. rewrite matched_none by exact Hnone. reflexivity.
Qed.

(** Go iterates a map in an order that varies from run to run: whatever
    order the keyword table is visited in, the loop of [calculateRank]
    ends with the same rank. *)
Theorem rank_independent_of_map_order (article : NewsArticle)
    (visited : list (string * Z)) :
  Permutation (keywordsFor (Category article)) visited ->
  sumMatches (contentOf (Title article) (Description article)) visited 0
  = calculateRank article.
Proof.
  intros HP. unfold calculateRank. symmetry.
  apply rank_order_irrelevant, HP.
Qed.

(** The table visited last entry first gives the rank of the built
    sample article. *)
Lemma rank_independent_of_map_order_witness :
  sumMatches (contentOf (Title sample.built) (Description sample.built))
             (rev (keywordsFor (Category sample.built))) 0
  = calculateRank sample.built.
Proof.
  apply (rank_independent_of_map_order sample.built
           (rev (keywordsFor (Category sample.built)))).
  apply Permutation_rev.
Defined.

Lemma listed_In sources sourceURL :
  listed sources sourceURL = true <-> In sourceURL sources.
Proof.
  unfold listed. rewrite existsb_exists. split.
  - intros [s [Hin E]]. apply String.eqb_eq in E. subst. exact Hin.
  - intros H. exists sourceURL. split; [exact H | apply String.eqb_refl].
Qed.

(** No source is in two of the classifier's tables. *)
Lemma classifier_tables_disjoint sourceURL :
  (listed cybersecuritySources sourceURL = true ->
   listed techSources sourceURL = false
   /\ listed defenseSources sourceURL = false)
  /\ (listed techSources sourceURL = true ->
      listed defenseSources sourceURL = false).
Proof.
  split; intros H; apply listed_In in H;
    cbn [In cybersecuritySources techSources] in H;
    repeat (destruct H as [<-|H]; [vm_compute; auto|]); contradiction.
Qed.

(** The classifier answers with the label of the table that lists the
    source, and with "General" exactly for the sources no table lists:
    the order in which the three tables are searched does not matter. *)
Theorem category_is_table_membership (sourceURL : string) :
  (getCategoryForSource sourceURL = "Cybersecurity"
   <-> In sourceURL cybersecuritySources)
  /\ (getCategoryForSource sourceURL = "Tech" <-> In sourceURL techSources)
  /\ (getCategoryForSource sourceURL = "Defense"
      <-> In sourceURL defenseSources)
  /\ (getCategoryForSource sourceURL = "General"
      <-> ~ In sourceURL cybersecuritySources
          /\ ~ In sourceURL techSources /\ ~ In sourceURL defenseSources)
  /\ In (getCategoryForSource sourceURL)
        ["Cybersecurity"; "Tech"; "Defense"; "General"].
Proof.
  pose proof (classifier_tables_disjoint sourceURL) as [Hc Ht].
  rewrite <- !listed_In. unfold getCategoryForSource.
  destruct (listed cybersecuritySources sourceURL) eqn:Ec.
  - destruct (Hc eq_refl) as [-> ->].
    repeat split; try discriminate; try reflexivity; try tauto;
      try (intros (H & _); discriminate); cbn; auto.
  - destruct (listed techSources sourceURL) eqn:Et.
    + rewrite (Ht eq_refl).
      repeat split; try discriminate; try reflexivity; try tauto;
        try (intros (_ & H & _); discriminate); cbn; auto.
    + destruct (listed defenseSources sourceURL) eqn:Ed;
        repeat split; try discriminate; try reflexivity; try tauto;
        try (intros (_ & _ & H); discriminate);
        try (intros H; discriminate); cbn; auto.
Qed.

(* ===================================================================== *)
(** * Further properties of the table                                     *)
(* ===================================================================== *)

(** Inserting an article whose URL is not in the table appends it: the
    count grows by one, the article is what the table holds under its URL,
    and what the table holds under every other URL is unchanged. *)
Theorem insert_new_url_appends (article : NewsArticle) (rows : Table) :
  hasURL (URL article) rows = false ->
  InsertArticle article rows = (rows ++ [article], None)
  /\ GetArticleCount (fst (InsertArticle article rows))
     = GetArticleCount rows + 1
  /\ articleByURL (URL article) (fst (InsertArticle article rows))
     = Some article
  /\ (forall url, url <> URL article ->
        articleByURL url (fst (InsertArticle article rows))
        = articleByURL url rows).
Proof.
  intros H. unfold InsertArticle. cbn [fst].
  rewrite (insertOrIgnore_absent _ _ H).
  split; [reflexivity|]. split; [|split].
  - unfold GetArticleCount. rewrite length_app. cbn [List.length]. lia.
  - rewrite <- (insertOrIgnore_absent _ _ H), articleByURL_insertOrIgnore.
    apply articleByURL_None in H. rewrite H, String.eqb_refl. reflexivity.
  - intros url Hne.
    rewrite <- (insertOrIgnore_absent _ _ H), articleByURL_insertOrIgnore.
    destruct (articleByURL url rows); [reflexivity|].
    destruct (String.eqb_spec (URL article) url); congruence.
Qed.

(** The sample article inserted under a URL the table does not hold. *)
Lemma insert_new_url_appends_witness :
  InsertArticle sample.article [sample.built]
  = ([sample.built; sample.article], None).
Proof.
  apply (insert_new_url_appends sample.article [sample.built]). reflexivity.
Defined.

(** The first article wins: after a restore, the table holds under a URL
    the row it held before, else the first valid row of the file with
    that URL; later rows of the same URL leave no trace.  The same holds
    of the articles a writer inserts one after the other. *)
Theorem first_article_of_a_url_is_kept
    (ParseRFC3339 : string -> option Time) (header : list string)
    (lines : list csv.Line) (articles : list NewsArticle) (rows : Table)
    (url : string) :
  (List.length header = 8%nat ->
   articleByURL url
     (fst (LoadArticlesFromCSV ParseRFC3339
             (Some (csv.Fields header :: lines)) rows))
   = match articleByURL url rows with
     | Some row => Some row
     | None => articleByURL url (articlesOf ParseRFC3339 lines)
     end)
  /\ articleByURL url (insertAll articles rows)
     = match articleByURL url rows with
       | Some row => Some row
       | None => articleByURL url articles
       end.
Proof.
  split; [|apply articleByURL_insertAll].
  intros H. rewrite LoadArticlesFromCSV_header8 by exact H.
  apply articleByURL_insertAll.
Qed.

(** In the file of the duplicate test the first row of the URL is the one
    the table holds. *)
Lemma first_article_of_a_url_is_kept_witness :
  option_map Title
    (articleByURL "https://example.com/1"
       (fst (LoadArticlesFromCSV sample.parseRFC3339Z
               (Some sample.duplicateCSV) [])))
  = Some "Test Article 1".
Proof.
  destruct (first_article_of_a_url_is_kept sample.parseRFC3339Z
              expectedHeaders (tl sample.duplicateCSV) [] []
              "https://example.com/1") as [H _].
  change (Some sample.duplicateCSV)
    with (Some (csv.Fields expectedHeaders :: tl sample.duplicateCSV)).
  rewrite H by reflexivity. reflexivity.
Defined.

Lemma insertAll_unique articles rows :
  uniqueURLs rows -> uniqueURLs (insertAll articles rows).
Proof.
  revert rows. induction articles as [|a articles IH]; intros rows H.
  - exact H.
  - cbn [insertAll fold_left]. apply IH, insertOrIgnore_unique, H.
Qed.

Lemma extends_refl rows : extends rows rows.
Proof. exists []. symmetry. apply app_nil_r. Qed.

Lemma extends_trans rows1 rows2 rows3 :
  extends rows2 rows1 -> extends rows3 rows2 -> extends rows3 rows1.
Proof.
  intros [a1 ->] [a2 ->]. exists (a1 ++ a2). symmetry. apply app_assoc.
Qed.

Lemma insertOrIgnore_extends article rows :
  extends (insertOrIgnore article rows) rows.
Proof.
  unfold insertOrIgnore. destruct (hasURL (URL article) rows).
  - apply extends_refl.
  - exists [article]. reflexivity.
Qed.

Lemma insertAll_extends articles rows : extends (insertAll articles rows) rows.
Proof.
  revert rows. induction articles as [|a articles IH]; intros rows.
  - apply extends_refl.
  - cbn [insertAll fold_left].
    eapply extends_trans; [apply insertOrIgnore_extends | apply IH].
Qed.

Section RestoreMore.

Variable ParseRFC3339 : string -> option Time.

Lemma LoadArticlesFromCSV_bad_header header lines rows :
  List.length header <> 8%nat ->
  LoadArticlesFromCSV ParseRFC3339 (Some (csv.Fields header :: lines)) rows
  = (rows, Some "invalid CSV header").
Proof.
  intros H. unfold LoadArticlesFromCSV, csv.readRecord.
  cbn [Z.gtb Z.compare Z.eqb expectedHeaders List.length].
  replace (Z.of_nat (List.length header) =? Z.of_nat 8) with false
    by (symmetry; apply Z.eqb_neq; lia).
  reflexivity.
Qed.

(** The outcome of a restore, case by case: it fails, leaving the table
    as it was, unless the file opens and its first line is a record of 8
    fields; then it succeeds, whatever the data rows are. *)
Lemma LoadArticlesFromCSV_cases file rows :
  (exists header lines,
     file = Some (csv.Fields header :: lines)
     /\ List.length header = 8%nat
     /\ LoadArticlesFromCSV ParseRFC3339 file rows
        = (insertAll (articlesOf ParseRFC3339 lines) rows, None))
  \/ (exists e, LoadArticlesFromCSV ParseRFC3339 file rows = (rows, Some e))
     /\ (forall header lines,
           file = Some (csv.Fields header :: lines) ->
           List.length header <> 8%nat).
Proof.
  destruct file as [[|[header|partial] lines]|].
  - right. split; [eexists; reflexivity | discriminate].
  - destruct (Nat.eq_dec (List.length header) 8) as [E|E].
    + left. exists header, lines. split; [reflexivity|]. split; [exact E|].
      apply LoadArticlesFromCSV_header8, E.
    + right. split.
      * eexists. apply LoadArticlesFromCSV_bad_header, E.
      * intros h l [= <- <-]. exact E.
  - right. split; [eexists; reflexivity | discriminate].
  - right. split; [eexists; reflexivity | discriminate].
Qed.

End RestoreMore.

(** Articles whose URLs are all in the table change nothing. *)
Lemma insertAll_absorbed articles rows :
  (forall a, In a articles -> hasURL (URL a) rows = true) ->
  insertAll articles rows = rows.
Proof.
  induction articles as [|a articles IH]; intros H; [reflexivity|].
  cbn [insertAll fold_left].
  rewrite insertOrIgnore_present by (apply H; left; reflexivity).
  apply IH. intros b Hb. apply H. right. exact Hb.
Qed.

(** A restore either succeeds, which it does exactly when the file opens
    and its first line is a record of 8 fields, or reports an error and
    has not touched the table. *)
Theorem restore_fails_without_touching_the_table
    (ParseRFC3339 : string -> option Time)
    (file : option (list csv.Line)) (rows : Table) :
  (snd (LoadArticlesFromCSV ParseRFC3339 file rows) = None
   /\ exists header lines,
        file = Some (csv.Fields header :: lines)
        /\ List.length header = 8%nat)
  \/ (snd (LoadArticlesFromCSV ParseRFC3339 file rows) <> None
      /\ fst (LoadArticlesFromCSV ParseRFC3339 file rows) = rows
      /\ forall header lines,
           file = Some (csv.Fields header :: lines) ->
           List.length header <> 8%nat).
Proof.
  destruct (LoadArticlesFromCSV_cases ParseRFC3339 file rows)
    as [(header & lines & Hf & H8 & ->)|[[e ->] Hno]].
  - left. split; [reflexivity|]. exists header, lines. auto.
  - right. split; [discriminate|]. split; [reflexivity | exact Hno].
Qed.

(** Restoring the same file a second time changes nothing: the table and
    the outcome are those of the first restore. *)
Theorem restore_twice_is_restore_once
    (ParseRFC3339 : string -> option Time)
    (file : option (list csv.Line)) (rows : Table) :
  LoadArticlesFromCSV ParseRFC3339 file
    (fst (LoadArticlesFromCSV ParseRFC3339 file rows))
  = LoadArticlesFromCSV ParseRFC3339 file rows.
Proof.
  destruct (LoadArticlesFromCSV_cases ParseRFC3339 file rows)
    as [(header & lines & -> & H8 & E)|[[e E] _]].
  - rewrite E. cbn [fst]. rewrite LoadArticlesFromCSV_header8 by exact H8.
    f_equal. apply insertAll_absorbed. intros a Ha.
    apply insertAll_hasURL, Ha.
  - rewrite E. cbn [fst]. exact E.
Qed.

(** Only the column count of the first line is checked: any record of 8
    fields is taken for the header and is not inserted, even when it is a
    valid data row. *)
Theorem first_line_is_dropped_whatever_it_holds
    (ParseRFC3339 : string -> option Time) (first : list string)
    (lines : list csv.Line) (rows : Table) :
  List.length first = 8%nat ->
  LoadArticlesFromCSV ParseRFC3339 (Some (csv.Fields first :: lines)) rows
  = LoadArticlesFromCSV ParseRFC3339
      (Some (csv.Fields expectedHeaders :: lines)) rows.
Proof.
  intros H. rewrite !LoadArticlesFromCSV_header8 by (exact H || reflexivity).
  reflexivity.
Qed.

(** The backup of the restore test without its header line: its first
    article is taken for the header and only the other two are stored. *)
Lemma first_line_is_dropped_whatever_it_holds_witness :
  map Title
    (fst (LoadArticlesFromCSV sample.parseRFC3339Z
            (Some (tl sample.articlesCSV)) []))
  = ["Test Article 2"; "Test Article 3"].
Proof.
  change (Some (tl sample.articlesCSV))
    with (Some (csv.Fields ["Test Article 1"; "Description for article 1";
                            "https://img.example.com/1.jpg";
                            "https://example.com/1";
                            "https://source.example.com";
                            "2024-01-15T10:30:00Z"; "5"; "Cybersecurity"]
                  :: tl (tl sample.articlesCSV))).
  rewrite (first_line_is_dropped_whatever_it_holds sample.parseRFC3339Z)
    by reflexivity.
  vm_compute. reflexivity.
Defined.

Lemma insertOrIgnore_count article rows :
  GetArticleCount rows <= GetArticleCount (insertOrIgnore article rows)
  <= GetArticleCount rows + 1.
Proof.
  unfold insertOrIgnore, GetArticleCount.
  destruct (hasURL (URL article) rows); [lia|].
  rewrite length_app. cbn [List.length]. lia.
Qed.

Lemma insertAll_count articles rows :
  GetArticleCount rows <= GetArticleCount (insertAll articles rows)
  <= GetArticleCount rows + Z.of_nat (List.length articles).
Proof.
  revert rows. induction articles as [|a articles IH]; intros rows.
  - cbn. lia.
  - cbn [insertAll fold_left List.length].
    pose proof (insertOrIgnore_count a rows).
    pose proof (IH (insertOrIgnore a rows)). unfold insertAll in *. lia.
Qed.

Lemma importRecords_count ParseRFC3339 lines rows importedCount :
  snd (importRecords ParseRFC3339 8 lines rows importedCount)
  = importedCount
    + Z.of_nat (List.length (articlesOf ParseRFC3339 lines)).
Proof.
  revert rows importedCount.
  induction lines as [|line lines IH]; intros rows importedCount.
  - cbn. lia.
  - cbn [importRecords articlesOf flat_map].
    fold (articlesOf ParseRFC3339 lines).
    destruct line as [record|partial].
    + rewrite readRecord_data.
      destruct (articleOfRecord ParseRFC3339 record) as [article|] eqn:E.
      * rewrite (articleOfRecord_length _ _ _ E), E.
        rewrite IH, length_app. cbn [List.length]. lia.
      * destruct (Z.of_nat (List.length record) =? 8);
          rewrite ?E, IH; cbn [app]; lia.
    + cbn. apply IH.
Qed.

(** The number the restore logs as loaded is the number of valid data
    rows, the rows the insert ignored as duplicates included: the table
    grows by at most that number, and by less when the URL of a valid row
    is already in the table. *)
Theorem imported_count_counts_valid_rows
    (ParseRFC3339 : string -> option Time) (lines : list csv.Line)
    (rows : Table) :
  snd (importRecords ParseRFC3339 8 lines rows 0)
  = Z.of_nat (List.length (articlesOf ParseRFC3339 lines))
  /\ GetArticleCount rows
     <= GetArticleCount (fst (importRecords ParseRFC3339 8 lines rows 0))
     <= GetArticleCount rows
        + snd (importRecords ParseRFC3339 8 lines rows 0)
  /\ (forall article,
        In article (articlesOf ParseRFC3339 lines) ->
        hasURL (URL article) rows = true ->
        GetArticleCount (fst (importRecords ParseRFC3339 8 lines rows 0))
        < GetArticleCount rows
          + snd (importRecords ParseRFC3339 8 lines rows 0)).
Proof.
  rewrite importRecords_count, importRecords_insertAll, Z.add_0_l.
  split; [reflexivity|]. split; [apply insertAll_count|].
  intros article Hin Hurl.
  apply in_split in Hin as (before & after & ->).
  rewrite insertAll_app. cbn [insertAll fold_left].
  fold (insertAll after (insertOrIgnore article (insertAll before rows))).
  rewrite insertOrIgnore_present
    by (apply insertAll_hasURL_keeps, Hurl).
  pose proof (insertAll_count before rows).
  pose proof (insertAll_count after (insertAll before rows)).
  rewrite length_app. cbn [List.length]. lia.
Qed.

(* ===================================================================== *)
(** * Further properties of the threat aggregation                        *)
(* ===================================================================== *)

(** Every rank falls in exactly one bucket. *)
Lemma count_partition ranks :
  count isLow ranks + count isMedium ranks + count isHigh ranks
  = Z.of_nat (List.length ranks).
Proof.
  induction ranks as [|rank ranks IH].
  - reflexivity.
  - rewrite !count_cons. cbn [List.length]. rewrite Nat2Z.inj_succ.
    assert ((if isLow rank then 1 else 0) + (if isMedium rank then 1 else 0)
            + (if isHigh rank then 1 else 0) = 1) as Hone.
    { unfold isLow, isMedium, isHigh.
      destruct (Z.ltb_spec rank 2), (Z.leb_spec 2 rank),
        (Z.ltb_spec rank 5), (Z.leb_spec 5 rank); cbn [andb]; lia. }
    lia.
Qed.

Lemma filter_length_le {A} (p : A -> bool) l :
  (List.length (filter p l) <= List.length l)%nat.
Proof.
  induction l as [|x l IH]; cbn [filter List.length]; [lia|].
  destruct (p x); cbn [List.length]; lia.
Qed.

(** The three bucket counts are not negative and add up to the total,
    which is the number of articles of the last 24 hours and so at most
    the number of stored articles. *)
Theorem threat_counts_partition_the_window (now : Time) (rows : Table) :
  let ts := fst (GetTodayThreatScore now rows) in
  LowRankCount ts + MediumRankCount ts + HighRankCount ts = TotalArticles ts
  /\ 0 <= LowRankCount ts /\ 0 <= MediumRankCount ts
  /\ 0 <= HighRankCount ts
  /\ TotalArticles ts <= GetArticleCount rows
  /\ (TotalArticles ts = 0 <-> inWindow now rows = []).
Proof.
  cbn zeta. unfold GetTodayThreatScore.
  rewrite recentRanks_inWindow, fold_countRank.
  cbn [fst TotalArticles LowRankCount MediumRankCount HighRankCount
       lowRankCount mediumRankCount highRankCount totalArticles].
  rewrite !Z.add_0_l.
  pose proof (count_partition (map Rank (inWindow now rows))) as Hsum.
  pose proof (count_nonneg isLow (map Rank (inWindow now rows))).
  pose proof (count_nonneg isMedium (map Rank (inWindow now rows))).
  pose proof (count_nonneg isHigh (map Rank (inWindow now rows))).
  rewrite length_map in *.
  split; [exact Hsum|]. repeat split; try assumption.
  - unfold GetArticleCount, inWindow.
    pose proof (filter_length_le
                  (fun row => now - 86400 <=? PublishedAt row) rows). lia.
  - destruct (inWindow now rows); [reflexivity|].
    cbn [List.length]. lia.
  - intros ->. reflexivity.
Qed.

Lemma filter_Permutation {A} (p : A -> bool) l l' :
  Permutation l l' -> Permutation (filter p l) (filter p l').
Proof.
  induction 1; cbn [filter].
  - constructor.
  - destruct (p x); auto.
  - destruct (p x), (p y); auto using perm_swap, Permutation_refl.
  - eapply perm_trans; eauto.
Qed.

Lemma count_Permutation p ranks ranks' :
  Permutation ranks ranks' -> count p ranks = count p ranks'.
Proof.
  intros H. unfold count. f_equal.
  apply Permutation_length, filter_Permutation, H.
Qed.

(** The threat score is a function of the articles of the last 24 hours,
    whatever the order the table yields them in: two tables with the same
    recent articles have the same score, however many older articles
    either holds. *)
Theorem threat_score_depends_on_recent_articles_only (now : Time)
    (rows rows' : Table) :
  Permutation (inWindow now rows) (inWindow now rows') ->
  GetTodayThreatScore now rows = GetTodayThreatScore now rows'.
Proof.
  intros HP. unfold GetTodayThreatScore.
  rewrite !recentRanks_inWindow, !fold_countRank.
  assert (Permutation (map Rank (inWindow now rows))
                      (map Rank (inWindow now rows'))) as HR
    by (apply Permutation_map, HP).
  rewrite (count_Permutation isLow _ _ HR),
    (count_Permutation isMedium _ _ HR), (count_Permutation isHigh _ _ HR),
    (Permutation_length HR).
  reflexivity.
Qed.

(** The rows of the threat test in reverse order and without the article
    of two days ago give the score of the test. *)
Lemma threat_score_depends_on_recent_articles_only_witness :
  GetTodayThreatScore sample.now sample.threatRows
  = GetTodayThreatScore sample.now (rev (firstn 6 sample.threatRows)).
Proof.
  apply (threat_score_depends_on_recent_articles_only sample.now
           sample.threatRows (rev (firstn 6 sample.threatRows))).
  change (inWindow sample.now sample.threatRows)
    with (firstn 6 sample.threatRows).
  change (inWindow sample.now (rev (firstn 6 sample.threatRows)))
    with (rev (firstn 6 sample.threatRows)).
  apply Permutation_rev.
Defined.

(** The rank of an article of a category other than Cybersecurity and
    Tech is at most 3. *)
Lemma calculateRank_general article :
  keywordsFor (Category article) = generalKeywords ->
  calculateRank article <= 3.
Proof.
  intros E. rewrite calculateRank_matched, E.
  pose proof (totalWeight_matched_bounds
                (contentOf (Title article) (Description article))
                generalKeywords) as H.
  assert (totalWeight generalKeywords = 3) as E3 by reflexivity.
  rewrite E3 in H. apply H.
  intros kw Hin. apply (keywordsFor_positive "General"). exact Hin.
Qed.

Lemma keywordsFor_unlisted source :
  ~ In source cybersecuritySources -> ~ In source techSources ->
  keywordsFor (getCategoryForSource source) = generalKeywords.
Proof.
  rewrite <- !listed_In. unfold getCategoryForSource. intros Hc Ht.
  destruct (listed cybersecuritySources source); [congruence|].
  destruct (listed techSources source); [congruence|].
  destruct (listed defenseSources source); reflexivity.
Qed.

(* ===================================================================== *)
(** * Further properties of the worker                                    *)
(* ===================================================================== *)

Section WorkerMore.

Variable ParseURL : string -> option gofeed.Feed.
Variable DetectLanguageOf : string -> lingua.Language * bool.
Variable Sanitize : string -> string.
Variable Now : nat -> Time.

Local Abbreviation process1 := (processItem DetectLanguageOf Sanitize Now).
Local Abbreviation processN := (processItems DetectLanguageOf Sanitize Now).

Lemma processItem_rejected source feed item calls :
  isAccepted DetectLanguageOf item = false ->
  process1 source feed item calls = (None, calls).
Proof.
  unfold isAccepted, processItem.
  destruct (DetectLanguageOf _) as [lang confident]. cbn [fst].
  intros ->. reflexivity.
Qed.

Lemma processItem_accepted source feed item calls :
  isAccepted DetectLanguageOf item = true ->
  exists article,
    fst (process1 source feed item calls) = Some article
    /\ (calls <= snd (process1 source feed item calls) <= S calls)%nat.
Proof.
  unfold isAccepted, processItem.
  destruct (DetectLanguageOf _) as [lang confident]. cbn [fst].
  intros ->. cbn [negb].
  destruct (gofeed.PublishedParsed item);
    [|destruct (gofeed.FeedPublishedParsed feed)];
    eexists; (split; [reflexivity | cbn [snd]; lia]).
Qed.

(** The articles of a feed, one per accepted item and in the order of the
    items, with the fields the items give them. *)
Lemma processItems_accepted source feed items calls :
  let sent := fst (processN source feed items calls) in
  let accepted := filter (isAccepted DetectLanguageOf) items in
  map URL sent = map gofeed.Link accepted
  /\ map Title sent = map gofeed.Title accepted
  /\ map Description sent
     = map (fun item => Sanitize (gofeed.Description item)) accepted
  /\ Forall (fun a => SourceURL a = source
                      /\ Category a = getCategoryForSource source
                      /\ Rank a = calculateRank a) sent
  /\ (calls <= snd (processN source feed items calls)
      <= calls + List.length accepted)%nat.
Proof.
  cbn zeta. revert calls.
  induction items as [|item items IH]; intros calls.
  - cbn. repeat split; auto; lia.
  - cbn [processItems filter].
    destruct (isAccepted DetectLanguageOf item) eqn:Ea.
    + destruct (processItem_accepted source feed item calls Ea)
        as (article & Hsent & Hcalls).
      destruct (process1 source feed item calls) as [sent calls1] eqn:E1.
      cbn [fst snd] in Hsent, Hcalls. subst sent.
      pose proof (processItem_Some DetectLanguageOf Sanitize Now
                    source feed item calls article) as Hfields.
      rewrite E1 in Hfields.
      destruct (Hfields eq_refl) as (Ht & Hd & Hu & Hs & Hc & Hr & _).
      specialize (IH calls1).
      destruct (processN source feed items calls1) as [rest calls2].
      cbn [fst snd] in *.
      destruct IH as (IHu & IHt & IHd & IHf & IHc).
      cbn [map List.length]. rewrite Ht, Hd, Hu, IHu, IHt, IHd.
      repeat split; auto; lia.
    + rewrite (processItem_rejected source feed item calls Ea).
      specialize (IH calls).
      destruct (processN source feed items calls) as [rest calls2].
      cbn [fst snd] in *. exact IH.
Qed.

End WorkerMore.

(** A worker whose feed does not parse sends nothing and does not read
    the clock.  A worker whose feed parses sends one article per item the
    language filter accepts, in the order of the feed, and none for an
    item it rejects: the article has the item's link and title, the
    sanitized description of the item, the source of the worker, the
    category the classifier gives that source and the rank of the
    scorer; the clock is read at most once per accepted item. *)
Theorem worker_sends_one_article_per_accepted_item
    (ParseURL : string -> option gofeed.Feed)
    (DetectLanguageOf : string -> lingua.Language * bool)
    (Sanitize : string -> string) (Now : nat -> Time)
    (source : string) (calls : nat) :
  let result :=
    fetchWorker ParseURL DetectLanguageOf Sanitize Now source calls in
  match ParseURL source with
  | None => result = ([], calls)
  | Some feed =>
      let accepted := filter (isAccepted DetectLanguageOf)
                             (gofeed.Items feed) in
      map URL (fst result) = map gofeed.Link accepted
      /\ map Title (fst result) = map gofeed.Title accepted
      /\ map Description (fst result)
         = map (fun item => Sanitize (gofeed.Description item)) accepted
      /\ Forall (fun a => SourceURL a = source
                          /\ Category a = getCategoryForSource source
                          /\ Rank a = calculateRank a) (fst result)
      /\ (calls <= snd result <= calls + List.length accepted)%nat
  end.
Proof.
  cbn zeta. unfold fetchWorker.
  destruct (ParseURL source) as [feed|]; [|reflexivity].
  pose proof (processItems_accepted DetectLanguageOf Sanitize Now
                source feed (gofeed.Items feed) calls) as H.
  cbn zeta in H. exact H.
Qed.

Lemma filter_none {A} (p : A -> bool) l :
  (forall x, In x l -> p x = false) -> filter p l = [].
Proof.
  induction l as [|x l IH]; intros H; [reflexivity|].
  cbn [filter]. rewrite (H x (or_introl eq_refl)).
  apply IH. intros y Hy. apply H. right. exact Hy.
Qed.

(** What the pipeline builds from a source outside the cybersecurity and
    tech tables has rank at most 3. *)
Lemma built_unlisted_rank DetectLanguageOf Sanitize Now article :
  builtByPipeline DetectLanguageOf Sanitize Now article ->
  ~ In (SourceURL article) cybersecuritySources ->
  ~ In (SourceURL article) techSources ->
  0 <= Rank article <= 3.
Proof.
  intros (source & feed & item & calls & H) Hc Ht.
  apply processItem_Some in H as (_ & _ & _ & Hs & Hcat & Hrank & _).
  rewrite Hrank. split; [apply calculateRank_bounds|].
  apply calculateRank_general. rewrite Hcat, <- Hs.
  apply keywordsFor_unlisted; assumption.
Qed.

(** Articles the pipeline builds from sources outside the classifier's
    cybersecurity and tech tables (the defense feeds, and the four
    configured feeds no table lists) are scored with the three-keyword
    table, so their rank is at most 3: none of them is ever counted as
    high, and a day on which all recent articles are of this kind is
    never "Code Red". *)
Theorem unlisted_sources_never_raise_code_red
    (DetectLanguageOf : string -> lingua.Language * bool)
    (Sanitize : string -> string) (Now : nat -> Time)
    (now : Time) (rows : Table) :
  (forall a, In a (inWindow now rows) ->
     builtByPipeline DetectLanguageOf Sanitize Now a
     /\ ~ In (SourceURL a) cybersecuritySources
     /\ ~ In (SourceURL a) techSources) ->
  (forall a, In a (inWindow now rows) -> 0 <= Rank a <= 3)
  /\ HighRankCount (fst (GetTodayThreatScore now rows)) = 0
  /\ ThreatLevel (fst (GetTodayThreatScore now rows)) <> "Code Red".
Proof.
  intros H.
  assert (forall a, In a (inWindow now rows) -> 0 <= Rank a <= 3) as Hrank.
  { intros a Ha. destruct (H a Ha) as (Hb & Hc & Ht).
    eapply built_unlisted_rank; eassumption. }
  split; [exact Hrank|].
  unfold GetTodayThreatScore.
  rewrite recentRanks_inWindow, fold_countRank.
  cbn [fst HighRankCount ThreatLevel lowRankCount mediumRankCount
       highRankCount totalArticles].
  assert (count isHigh (map Rank (inWindow now rows)) = 0) as Hz.
  { rewrite count_map_Rank. unfold countIf.
    rewrite filter_none; [reflexivity|].
    intros a Ha. unfold isHigh. apply Z.leb_gt.
    specialize (Hrank a Ha). lia. }
  rewrite Hz. split; [reflexivity|].
  unfold levelOf.
  cbn [lowRankCount mediumRankCount highRankCount totalArticles].
  destruct (_ =? 0); [discriminate|]. cbn [Z.add Z.gtb Z.compare].
  destruct (_ >? 0); discriminate.
Qed.

(** A table whose one recent article was built from the Defense One feed:
    the title says "ransomware attack", the level is not "Code Red". *)
Lemma unlisted_sources_never_raise_code_red_witness :
  ThreatLevel (fst (GetTodayThreatScore sample.now [sample.builtDefense]))
  <> "Code Red".
Proof.
  apply (unlisted_sources_never_raise_code_red
           sample.detectEnglish sample.sanitizePlain sample.clock
           sample.now [sample.builtDefense]).
  intros a [<-|[]].
  split; [|split].
  - exists "https://www.defenseone.com/rss/all/", sample.feed, sample.item,
      0%nat. reflexivity.
  - cbn. intros H. repeat (destruct H as [H|H]; [discriminate|]). exact H.
  - cbn. intros H. repeat (destruct H as [H|H]; [discriminate|]). exact H.
Defined.

(** In a table reached by caching runs alone, the category of every
    article is what the classifier answers for the article's source, one
    of the four labels. *)
Theorem ingested_category_is_classifier_output
    (DetectLanguageOf : string -> lingua.Language * bool)
    (Sanitize : string -> string) (Now : nat -> Time) (rows : Table) :
  Ingested DetectLanguageOf Sanitize Now rows ->
  forall a, In a rows ->
    Category a = getCategoryForSource (SourceURL a)
    /\ In (Category a) ["Cybersecurity"; "Tech"; "Defense"; "General"].
Proof.
  induction 1 as [|rows article Hrows IH Hbuilt]; intros a Ha.
  - contradiction.
  - assert (Category a = getCategoryForSource (SourceURL a)) as E.
    { cbn [InsertArticle fst] in Ha. unfold insertOrIgnore in Ha.
      destruct (hasURL (URL article) rows); [apply IH, Ha|].
      apply in_app_or in Ha as [Ha|[<-|[]]]; [apply IH, Ha|].
      destruct Hbuilt as (source & feed & item & calls & H).
      apply processItem_Some in H as (_ & _ & _ & Hs & Hc & _).
      rewrite Hc, Hs. reflexivity. }
    split; [exact E|]. rewrite E. apply getCategoryForSource_total.
Qed.

Lemma ingested_category_is_classifier_output_witness :
  Category sample.built = getCategoryForSource (SourceURL sample.built)
  /\ In (Category sample.built)
        ["Cybersecurity"; "Tech"; "Defense"; "General"].
Proof.
  apply (ingested_category_is_classifier_output
           sample.detectEnglish sample.sanitizePlain sample.clock
           [sample.built]).
  - apply (ingested_insert sample.detectEnglish sample.sanitizePlain
                           sample.clock [] sample.built).
    + apply ingested_empty.
    + exists "https://www.bleepingcomputer.com/feed/", sample.feed,
        sample.item, 0%nat. reflexivity.
  - left. reflexivity.
Defined.

(* ===================================================================== *)
(** * Further properties of the queries                                   *)
(* ===================================================================== *)

Lemma NoDup_map_filter {A B} (f : A -> B) (p : A -> bool) l :
  NoDup (map f l) -> NoDup (map f (filter p l)).
Proof.
  induction l as [|x l IH]; cbn [map filter]; intros H; [exact H|].
  inversion H as [|? ? Hnotin Hrest]; subst.
  destruct (p x); [|apply IH, Hrest].
  cbn [map]. constructor; [|apply IH, Hrest].
  intros Hin. apply Hnotin. apply in_map_iff in Hin as (y & E & Hy).
  apply in_map_iff. exists y. split; [exact E|].
  apply filter_In in Hy. apply Hy.
Qed.

Lemma NoDup_firstn_own {A} n (l : list A) : NoDup l -> NoDup (firstn n l).
Proof.
  revert l. induction n as [|n IH]; intros [|x l] H; cbn [firstn];
    try constructor.
  - inversion H; subst. intros Hin. apply In_firstn in Hin. contradiction.
  - inversion H; subst. apply IH. assumption.
Qed.

Lemma limitRows_length limit rows :
  (List.length (limitRows limit rows) <= List.length rows)%nat
  /\ (0 < limit -> Z.of_nat (List.length (limitRows limit rows)) <= limit).
Proof.
  unfold limitRows. destruct (Z.gtb_spec limit 0) as [Hpos|Hle].
  - rewrite length_firstn. split; lia.
  - split; lia.
Qed.

(** A positive limit cuts the ordered result after that many articles;
    a zero or negative limit does not limit at all.  A query never
    returns more articles than the table holds, never returns a stored
    article twice, and on the nil handle returns nothing and an error. *)
Theorem query_limit_and_handle (rows : Table)
    (sourceFilter categoryFilter searchFilter : string) (limit : Z)
    (startDate endDate : Time) (sortBy : string) :
  let unlimited :=
    fst (GetArticlesFromDB (Some rows) sourceFilter categoryFilter
           searchFilter 0 startDate endDate sortBy) in
  let result :=
    fst (GetArticlesFromDB (Some rows) sourceFilter categoryFilter
           searchFilter limit startDate endDate sortBy) in
  result = (if 0 <? limit then firstn (Z.to_nat limit) unlimited
            else unlimited)
  /\ (if 0 <? limit then Z.of_nat (List.length result) <= limit else True)
  /\ (List.length result <= List.length rows)%nat
  /\ (uniqueURLs rows -> uniqueURLs result)
  /\ GetArticlesFromDB None sourceFilter categoryFilter searchFilter limit
                       startDate endDate sortBy
     = ([], Some "database connection is nil").
Proof.
  cbn zeta. cbn [GetArticlesFromDB fst]. unfold selectArticles.
  set (selected := filter _ rows).
  set (ordered := if (sortBy =? "rank")%string then orderByDesc Rank selected
                  else orderByDesc PublishedAt selected).
  assert (Permutation selected ordered) as HP
    by (unfold ordered; destruct (sortBy =? "rank")%string;
        apply orderByDesc_Permutation).
  assert (limitRows 0 ordered = ordered) as E0 by reflexivity.
  rewrite E0.
  destruct (limitRows_length limit ordered) as [Hlen Hlim].
  split; [|split; [|split; [|split]]].
  - unfold limitRows. rewrite Z.gtb_ltb. reflexivity.
  - destruct (Z.ltb_spec 0 limit); [apply Hlim; assumption | exact I].
  - eapply Nat.le_trans; [exact Hlen|].
    rewrite <- (Permutation_length HP). apply filter_length_le.
  - unfold uniqueURLs. intros Hu.
    assert (NoDup (map URL ordered)) as Ho.
    { eapply Permutation_NoDup; [apply Permutation_map, HP|].
      apply NoDup_map_filter, Hu. }
    unfold limitRows. destruct (limit >? 0); [|exact Ho].
    rewrite <- firstn_map. apply NoDup_firstn_own, Ho.
  - reflexivity.
Qed.

Lemma like_percent_percent text : like "%%" text = true.
Proof.
  change "%%" with (String "%" "%").
  rewrite like_percent, like_only_percent. reflexivity.
Qed.

Lemma like_three_percent text : like "%%%" text = true.
Proof.
  change "%%%" with (String "%" "%%").
  rewrite like_percent, like_percent_percent. reflexivity.
Qed.

Lemma like_underscore text : like "%_%" text = nonEmpty text.
Proof.
  change "%_%" with (String "%" (String "_" "%")).
  induction text as [|c text IH]; [reflexivity|].
  rewrite like_percent. cbn [like]. change (String "%" "") with "%".
  rewrite like_only_percent. reflexivity.
Qed.

Lemma nonEmpty_ToLower s : nonEmpty (ToLower s) = nonEmpty s.
Proof. destruct s; reflexivity. Qed.

(** The characters [%] and [_] of a search filter reach [LIKE] as
    wildcards: the filter "%" selects every article, also one without a
    percent sign in its text, so it returns what the empty filter
    returns; and the filter "_" selects the articles with a non-empty
    title or description. *)
Theorem search_wildcards_are_interpreted (rows : Table)
    (sourceFilter categoryFilter : string) (limit : Z)
    (startDate endDate : Time) (sortBy : string) :
  (forall row, searchClause "%" row = true)
  /\ (forall row,
        searchClause "_" row
        = nonEmpty (Title row) || nonEmpty (Description row))
  /\ GetArticlesFromDB (Some rows) sourceFilter categoryFilter "%" limit
                       startDate endDate sortBy
     = GetArticlesFromDB (Some rows) sourceFilter categoryFilter "" limit
                         startDate endDate sortBy.
Proof.
  assert (forall row, searchClause "%" row = true) as Hall.
  { intros row. unfold searchClause.
    change ("%" ++ ToLower "%" ++ "%")%string with "%%%".
    rewrite like_three_percent. reflexivity. }
  split; [exact Hall|]. split.
  - intros row. unfold searchClause.
    change ("%" ++ ToLower "_" ++ "%")%string with "%_%".
    rewrite !like_underscore, !nonEmpty_ToLower. reflexivity.
  - cbn [GetArticlesFromDB]. f_equal. unfold selectArticles.
    replace (filter (satisfies (whereClauses sourceFilter categoryFilter "%"
                                  startDate endDate)) rows)
      with (filter (satisfies (whereClauses sourceFilter categoryFilter ""
                                 startDate endDate)) rows); [reflexivity|].
    apply filter_ext. intros row. apply eq_true_iff_eq.
    rewrite !satisfies_whereClauses. unfold qualifies.
    rewrite Hall. intuition congruence.
Qed.

Lemma satisfies_nil row : satisfies [] row = true.
Proof. reflexivity. Qed.

(** The stream of all articles is the query without filter and without
    limit in its default order: every stored article once, newest first;
    and like the query it answers the nil handle with an error. *)
Theorem stream_is_the_unfiltered_query (db : option Table) :
  GetAllArticlesStream db = GetArticlesFromDB db "" "" "" 0 0 0 ""
  /\ GetAllArticlesStream db = GetArticlesFromDB db "all" "all" "" (-1) 0 0 "recency"
  /\ match db with
     | None => snd (GetAllArticlesStream db) <> None
     | Some rows =>
         Permutation rows (fst (GetAllArticlesStream db))
         /\ descendingBy PublishedAt (fst (GetAllArticlesStream db))
         /\ snd (GetAllArticlesStream db) = None
     end.
Proof.
  destruct db as [rows|]; cbn [GetAllArticlesStream GetArticlesFromDB fst snd].
  - assert (forall l : Table, filter (satisfies []) l = l) as Hf
      by (intros l; apply forallb_filter_id, forallb_forall; reflexivity).
    unfold selectArticles, limitRows. cbn. rewrite Hf.
    repeat split.
    + apply orderByDesc_Permutation.
    + apply orderByDesc_sorted.
  - repeat split. discriminate.
Qed.

(* ===================================================================== *)
(** * Further properties of a caching run                                 *)
(* ===================================================================== *)

(** The channel is closed by the caller's [close], after which the caller
    is at its log line or has returned. *)
Lemma closed_by_caller sends rows r :
  reachable sends rows r ->
  closed r = true -> caller r = AtLog \/ caller r = Returned.
Proof.
  unfold reachable. induction 1 as [|r r' Hstep Hreach IH].
  - cbn. discriminate.
  - destruct Hstep; cbn [closed caller] in *; intros Hc; auto;
      destruct (IH Hc); congruence.
Qed.

Lemma busy_worker ws :
  forallb isFinished ws = false ->
  exists i toSend, nth_error ws i = Some (Sending toSend).
Proof.
  induction ws as [|w ws IH]; cbn [forallb]; [discriminate|].
  destruct w as [toSend|]; cbn [isFinished andb].
  - intros _. exists 0%nat, toSend. reflexivity.
  - intros H. destruct (IH H) as (i & toSend & E).
    exists (S i), toSend. exact E.
Qed.

(** A run never deadlocks: in every state it reaches, either the caller
    has returned and the writer has left its loop, or some goroutine can
    take a step.  In particular a full buffer never blocks the workers for
    good, and the writer never waits on a channel nobody will close. *)
Theorem run_never_deadlocks (sends : list (list NewsArticle)) (rows : Table)
    (r : Run) :
  reachable sends rows r -> terminated r \/ exists r', step r r'.
Proof.
  intros Hreach.
  pose proof (reachable_runInvariant _ _ _ Hreach)
    as (_ & _ & Hlog & Hexit & _).
  pose proof (closed_by_caller _ _ _ Hreach) as Hclosed.
  destruct (writer r) as [|article|] eqn:Ew.
  - destruct (articleChan r) as [|article queued] eqn:Ech.
    + destruct (closed r) eqn:Ecl.
      * right. eexists. apply step_exit; assumption.
      * destruct (caller r) eqn:Ec.
        -- destruct (forallb isFinished (workers r)) eqn:Ef.
           ++ right. eexists. apply step_wait; assumption.
           ++ destruct (busy_worker _ Ef) as (i & [|a toSend] & E).
              ** right. eexists. eapply step_done, E.
              ** right. eexists. eapply step_send; [exact E|].
                 rewrite Ech. cbn. unfold capacity. lia.
        -- right. eexists. apply step_close, Ec.
        -- specialize (Hlog (or_introl eq_refl)). discriminate.
        -- specialize (Hlog (or_intror eq_refl)). discriminate.
    + right. eexists. eapply step_receive; eassumption.
  - right. eexists. eapply step_insert, Ew.
  - destruct (Hexit eq_refl) as [_ Hcl].
    destruct (Hclosed Hcl) as [Ec|Ec].
    + right. eexists. apply step_log, Ec.
    + left. split; assumption.
Qed.

Lemma run_never_deadlocks_witness :
  terminated (mkRun [Finished] [sample.article] true Returned Receiving [])
  \/ exists r',
       step (mkRun [Finished] [sample.article] true Returned Receiving [])
            r'.
Proof.
  apply (run_never_deadlocks [[sample.article]] []
           (mkRun [Finished] [sample.article] true Returned Receiving [])).
  apply one_article_run_reaches_report.
Defined.

Lemma list_sum_setWorker (f : Worker -> nat) ws i w w' :
  nth_error ws i = Some w ->
  (list_sum (map f (setWorker i w' ws)) + f w
   = list_sum (map f ws) + f w')%nat.
Proof.
  unfold list_sum. revert i.
  induction ws as [|w0 ws IH]; intros [|i]; cbn; try discriminate.
  - intros [= ->]. lia.
  - intros E. specialize (IH i E). lia.
Qed.

(** Every step uses up one of the steps left. *)
Lemma step_stepsLeft r r' : step r r' -> stepsLeft r = S (stepsLeft r').
Proof.
  intros Hstep.
  destruct Hstep as
    [r i article toSend Hw Hroom | r i Hw | r Hc Hall | r Hc | r Hc
     | r article queued Hwr Hch | r article Hwr | r Hwr Hch Hcl];
    unfold stepsLeft; cbn [workers articleChan closed caller writer table];
    rewrite ?Hc, ?Hwr, ?Hch; cbn [callerSteps writerSteps List.length];
    try lia.
  - pose proof (list_sum_setWorker workerSteps _ _ _ (Sending toSend) Hw) as E.
    cbn [workerSteps List.length] in E. rewrite length_app.
    cbn [List.length]. lia.
  - pose proof (list_sum_setWorker workerSteps _ _ _ Finished Hw) as E.
    cbn [workerSteps List.length] in E. lia.
Qed.

Lemma stepsN_stepsLeft n r r' :
  stepsN n r r' -> stepsLeft r = (n + stepsLeft r')%nat.
Proof.
  induction 1 as [|n r r' r'' Hstep _ IH]; [reflexivity|].
  rewrite (step_stepsLeft _ _ Hstep), IH. reflexivity.
Qed.

Lemma stepsN_reachable sends rows n r :
  stepsN n (startRun sends rows) r -> reachable sends rows r.
Proof.
  unfold reachable. intros H. apply clos_rt_rtn1.
  induction H as [|n r r' r'' Hstep _ IH]; [apply rt_refl|].
  eapply rt_trans; [apply rt_step, Hstep | exact IH].
Qed.

Lemma finished_workerSteps ws :
  forallb isFinished ws = true -> list_sum (map workerSteps ws) = 0%nat.
Proof.
  unfold list_sum. induction ws as [|w ws IH]; [reflexivity|].
  cbn [forallb map fold_right]. destruct w; cbn [isFinished andb];
    [discriminate|]. intros H. rewrite (IH H). reflexivity.
Qed.

Lemma stepsLeft_start sends rows :
  stepsLeft (startRun sends rows)
  = (3 * List.length (List.concat sends) + List.length sends + 4)%nat.
Proof.
  unfold stepsLeft, startRun. cbn [workers articleChan caller writer
    callerSteps writerSteps List.length].
  assert (list_sum (map workerSteps (map Sending sends))
          = (3 * List.length (List.concat sends) + List.length sends)%nat) as E.
  { unfold list_sum. induction sends as [|toSend sends IH]; [reflexivity|].
    cbn [map fold_right List.concat workerSteps List.length].
    rewrite IH, length_app. lia. }
  rewrite E. lia.
Qed.

(** A run terminates: no execution from its start is longer than three
    steps per article sent (send, receive, insert), one per worker, and
    four of caller and writer; and an execution that ends with the caller
    returned and the writer out of its loop has exactly that length. *)
Theorem run_terminates_within_bound (sends : list (list NewsArticle))
    (rows : Table) (n : nat) (r : Run) :
  stepsN n (startRun sends rows) r ->
  (n <= 3 * List.length (List.concat sends) + List.length sends + 4)%nat
  /\ (terminated r ->
      n = (3 * List.length (List.concat sends) + List.length sends + 4)%nat).
Proof.
  intros Hsteps.
  pose proof (stepsN_stepsLeft _ _ _ Hsteps) as E.
  rewrite stepsLeft_start in E.
  pose proof (stepsN_reachable _ _ _ _ Hsteps) as Hreach.
  split; [lia|].
  intros [Hc Hw].
  pose proof (reachable_runInvariant _ _ _ Hreach)
    as (Hclosed & _ & Hlog & Hexit & _).
  destruct (Hexit Hw) as [Hch Hcl].
  assert (stepsLeft r = 0%nat) as Hz.
  { unfold stepsLeft. rewrite Hc, Hw, Hch.
    rewrite (finished_workerSteps _ (Hclosed Hcl)). reflexivity. }
  lia.
Qed.

(** The eight steps of the run of one worker with one article. *)
Lemma one_article_run_complete :
  stepsN 8 (startRun [[sample.article]] [])
    (mkRun [Finished] [] true Returned Exited [sample.article]).
Proof.
  unfold startRun. cbn [map].
  eapply stepsN_S;
    [exact (step_send (mkRun [Sending [sample.article]] [] false AtWait
                             Receiving []) 0 sample.article [] eq_refl
                      (Nat.lt_0_succ 99))|].
  eapply stepsN_S;
    [exact (step_done (mkRun [Sending []] [sample.article] false AtWait
                             Receiving []) 0 eq_refl)|].
  eapply stepsN_S;
    [exact (step_wait (mkRun [Finished] [sample.article] false AtWait
                             Receiving []) eq_refl eq_refl)|].
  eapply stepsN_S;
    [exact (step_close (mkRun [Finished] [sample.article] false AtClose
                              Receiving []) eq_refl)|].
  eapply stepsN_S;
    [exact (step_log (mkRun [Finished] [sample.article] true AtLog
                            Receiving []) eq_refl)|].
  eapply stepsN_S;
    [exact (step_receive (mkRun [Finished] [sample.article] true Returned
                                Receiving []) sample.article [] eq_refl
                         eq_refl)|].
  eapply stepsN_S;
    [exact (step_insert (mkRun [Finished] [] true Returned
                               (Inserting sample.article) [])
                        sample.article eq_refl)|].
  eapply stepsN_S;
    [exact (step_exit (mkRun [Finished] [] true Returned Receiving
                             [sample.article]) eq_refl eq_refl eq_refl)|].
  apply stepsN_O.
Qed.

Lemma run_terminates_within_bound_witness :
  (8 <= 3 * List.length (List.concat [[sample.article]])
        + List.length [[sample.article]] + 4)%nat.
Proof.
  apply (run_terminates_within_bound [[sample.article]] [] 8
           (mkRun [Finished] [] true Returned Exited [sample.article])
           one_article_run_complete).
Defined.

Lemma unsent_setWorker ws i w w' x :
  nth_error ws i = Some w ->
  In x (flat_map toSendOf ws) ->
  In x (toSendOf w) \/ In x (flat_map toSendOf (setWorker i w' ws)).
Proof.
  revert i. induction ws as [|w0 ws IH]; intros [|i]; cbn [nth_error];
    try discriminate.
  - intros [= ->]. cbn [flat_map setWorker]. rewrite !in_app_iff. tauto.
  - intros E. cbn [flat_map setWorker]. rewrite !in_app_iff.
    intros [H|H]; [tauto|]. destruct (IH i E H); tauto.
Qed.

Lemma unsent_setWorker_new ws i w w' x :
  nth_error ws i = Some w ->
  In x (toSendOf w') -> In x (flat_map toSendOf (setWorker i w' ws)).
Proof.
  revert i. induction ws as [|w0 ws IH]; intros [|i]; cbn [nth_error];
    try discriminate.
  - intros _ H. cbn [flat_map setWorker]. apply in_or_app. left. exact H.
  - intros E H. cbn [flat_map setWorker]. apply in_or_app. right.
    apply (IH i E H).
Qed.

Lemma accountedFor_step r r' a :
  step r r' -> accountedFor r a -> accountedFor r' a.
Proof.
  unfold accountedFor, unsent, inFlight. intros Hstep.
  destruct Hstep as
    [r i article toSend Hw Hroom | r i Hw | r Hc Hall | r Hc | r Hc
     | r article queued Hwr Hch | r article Hwr | r Hwr Hch Hcl];
    cbn [workers articleChan closed caller writer table];
    rewrite ?Hwr, ?Hch; try tauto.
  - intros [H|[H|H]]; [|rewrite !in_app_iff in *; tauto | tauto].
    destruct (unsent_setWorker _ _ _ (Sending toSend) _ Hw H) as [Hx|Hx];
      [|tauto].
    cbn [toSendOf] in Hx. destruct Hx as [<-|Hx].
    + right. left. rewrite !in_app_iff. cbn. tauto.
    + left. eapply unsent_setWorker_new; [exact Hw | exact Hx].
  - intros [H|[H|H]]; try tauto.
    destruct (unsent_setWorker _ _ _ Finished _ Hw H) as [Hx|Hx];
      [contradiction | tauto].
  - cbn [InsertArticle fst app]. intros [H1|[[<-|H2]|H3]]; try tauto.
    + right. right. apply insertOrIgnore_hasURL.
    + right. right. apply insertOrIgnore_hasURL_keeps, H3.
Qed.

Lemma unsent_start sends rows :
  unsent (startRun sends rows) = List.concat sends.
Proof.
  unfold unsent, startRun. cbn [workers].
  induction sends as [|toSend sends IH]; [reflexivity|].
  cbn [map flat_map List.concat toSendOf]. rewrite IH. reflexivity.
Qed.

Lemma unsent_finished ws :
  forallb isFinished ws = true -> flat_map toSendOf ws = [].
Proof.
  induction ws as [|w ws IH]; [reflexivity|].
  cbn [forallb flat_map]. destruct w; cbn [isFinished andb toSendOf app];
    [discriminate | exact IH].
Qed.

(** A run loses no article: in every state, each article a worker was
    given to send is still with its worker, or in flight (buffered or in
    the writer's hand), or the table holds an article under its URL; and
    once the caller has returned and the writer has left its loop, the
    table holds an article under the URL of every one of them. *)
Theorem run_loses_no_article (sends : list (list NewsArticle)) (rows : Table)
    (r : Run) :
  reachable sends rows r ->
  (forall a, In a (List.concat sends) ->
     In a (unsent r) \/ In a (inFlight r)
     \/ hasURL (URL a) (table r) = true)
  /\ (terminated r ->
      unsent r = [] /\ inFlight r = []
      /\ forall a, In a (List.concat sends) ->
           hasURL (URL a) (table r) = true).
Proof.
  intros Hreach.
  assert (forall a, In a (List.concat sends) -> accountedFor r a) as Hall.
  { intros a Ha. unfold reachable in Hreach.
    induction Hreach as [|r r' Hstep _ IH].
    - left. rewrite unsent_start. exact Ha.
    - eapply accountedFor_step; eassumption. }
  split; [exact Hall|].
  intros [Hc Hw].
  pose proof (reachable_runInvariant _ _ _ Hreach)
    as (Hclosed & _ & _ & Hexit & _).
  destruct (Hexit Hw) as [Hch Hcl].
  assert (unsent r = []) as Hu by (apply unsent_finished, Hclosed, Hcl).
  assert (inFlight r = []) as Hf
    by (unfold inFlight; rewrite Hw, Hch; reflexivity).
  split; [exact Hu|]. split; [exact Hf|].
  intros a Ha. destruct (Hall a Ha) as [H|[H|H]]; [| |exact H].
  - rewrite Hu in H. contradiction.
  - rewrite Hf in H. contradiction.
Qed.

Lemma run_loses_no_article_witness :
  hasURL (URL sample.article) [sample.article] = true.
Proof.
  destruct (run_loses_no_article [[sample.article]] []
              (mkRun [Finished] [] true Returned Exited [sample.article])
              (stepsN_reachable _ _ _ _ one_article_run_complete))
    as [_ H].
  destruct (H (conj eq_refl eq_refl)) as (_ & _ & Hurl).
  apply (Hurl sample.article). left. reflexivity.
Defined.

Lemma unsent_length_setWorker ws i w w' :
  nth_error ws i = Some w ->
  (List.length (flat_map toSendOf (setWorker i w' ws))
   + List.length (toSendOf w)
   = List.length (flat_map toSendOf ws) + List.length (toSendOf w'))%nat.
Proof.
  revert i. induction ws as [|w0 ws IH]; intros [|i]; cbn [nth_error];
    try discriminate.
  - intros [= ->]. cbn [flat_map setWorker]. rewrite !length_app. lia.
  - intros E. cbn [flat_map setWorker]. rewrite !length_app.
    specialize (IH i E). lia.
Qed.

(** Rows, articles in flight and articles yet to be sent never number
    more than the rows and the articles of the start. *)
Lemma run_size_bounded sends rows r :
  reachable sends rows r ->
  (List.length (table r) + List.length (inFlight r)
   + List.length (unsent r)
   <= List.length rows + List.length (List.concat sends))%nat.
Proof.
  unfold reachable. induction 1 as [|r r' Hstep _ IH].
  - rewrite unsent_start. cbn. lia.
  - revert IH. unfold inFlight, unsent.
    destruct Hstep as
      [r i article toSend Hw Hroom | r i Hw | r Hc Hall | r Hc | r Hc
       | r article queued Hwr Hch | r article Hwr | r Hwr Hch Hcl];
      cbn [workers articleChan closed caller writer table];
      rewrite ?Hwr, ?Hch; cbn [app List.length]; try lia.
    + pose proof (unsent_length_setWorker _ _ _ (Sending toSend) Hw) as E.
      cbn [toSendOf List.length] in E. rewrite !length_app.
      cbn [List.length]. lia.
    + pose proof (unsent_length_setWorker _ _ _ Finished Hw) as E.
      cbn [toSendOf List.length] in E. lia.
    + pose proof (insertOrIgnore_count article (table r)) as Hc.
      unfold GetArticleCount in Hc. cbn [InsertArticle fst]. lia.
Qed.

(** A run only adds to the table: the rows present at its start stay as
    they are and where they are, every added row is an article some
    worker sent, and URLs that were pairwise distinct at the start are
    pairwise distinct in every state. *)
Theorem run_only_appends_sent_articles (sends : list (list NewsArticle))
    (rows : Table) (r : Run) :
  reachable sends rows r ->
  extends (table r) rows
  /\ (forall x, In x (table r) -> In x rows \/ In x (List.concat sends))
  /\ (uniqueURLs rows -> uniqueURLs (table r))
  /\ GetArticleCount rows <= GetArticleCount (table r)
     <= GetArticleCount rows + Z.of_nat (List.length (List.concat sends)).
Proof.
  intros Hreach.
  assert (extends (table r) rows /\ (uniqueURLs rows -> uniqueURLs (table r)))
    as [Hext Huniq].
  { unfold reachable in Hreach. induction Hreach as [|r r' Hstep _ IH].
    - split; [apply extends_refl | auto].
    - destruct IH as [IHe IHu].
      destruct Hstep; cbn [table InsertArticle fst]; try (split; assumption).
      split.
      + eapply extends_trans; [exact IHe | apply insertOrIgnore_extends].
      + intros Hu. apply insertOrIgnore_unique, IHu, Hu. }
  split; [exact Hext|]. split; [|split; [exact Huniq|]].
  - apply Forall_forall.
    apply (reachable_table_Forall
             (fun x => In x rows \/ In x (List.concat sends)) sends rows r);
      [| |exact Hreach].
    + apply Forall_forall. intros toSend Hin.
      apply Forall_forall. intros x Hx. right.
      apply in_concat. exists toSend. split; assumption.
    + apply Forall_forall. intros x Hx. left. exact Hx.
  - destruct Hext as [added E].
    pose proof (run_size_bounded _ _ _ Hreach) as Hsize.
    unfold GetArticleCount. rewrite E, length_app in *. lia.
Qed.

Lemma run_only_appends_sent_articles_witness :
  extends [sample.article] []
  /\ (forall x, In x [sample.article] ->
        In x [] \/ In x (List.concat [[sample.article]])).
Proof.
  destruct (run_only_appends_sent_articles [[sample.article]] []
              (mkRun [Finished] [] true Returned Exited [sample.article])
              (stepsN_reachable _ _ _ _ one_article_run_complete))
    as (Hext & Hfrom & _).
  split; [exact Hext | exact Hfrom].
Defined.

(** The URLs of the table stay pairwise distinct, and its rows stay as
    they are and where they are, under an insert and under a restore
    (which only append); so every table reached from the empty one by a
    restore and by caching runs has pairwise distinct URLs. *)
Theorem table_keeps_rows_and_unique_urls
    (ParseRFC3339 : string -> option Time)
    (DetectLanguageOf : string -> lingua.Language * bool)
    (Sanitize : string -> string) (Now : nat -> Time)
    (file : option (list csv.Line)) (article : NewsArticle) (rows : Table) :
  extends (fst (InsertArticle article rows)) rows
  /\ extends (fst (LoadArticlesFromCSV ParseRFC3339 file rows)) rows
  /\ (uniqueURLs rows ->
      uniqueURLs (fst (InsertArticle article rows))
      /\ uniqueURLs (fst (LoadArticlesFromCSV ParseRFC3339 file rows)))
  /\ (Stored ParseRFC3339 DetectLanguageOf Sanitize Now rows ->
      uniqueURLs rows).
Proof.
  assert (forall t, extends (fst (LoadArticlesFromCSV ParseRFC3339 file t)) t
                    /\ (uniqueURLs t ->
                        uniqueURLs
                          (fst (LoadArticlesFromCSV ParseRFC3339 file t))))
    as Hload.
  { intros t.
    destruct (LoadArticlesFromCSV_cases ParseRFC3339 file t)
      as [(header & lines & _ & _ & ->)|[[e ->] _]]; cbn [fst].
    - split; [apply insertAll_extends | apply insertAll_unique].
    - split; [apply extends_refl | auto]. }
  split; [apply insertOrIgnore_extends|].
  split; [apply Hload|]. split.
  - intros Hu. split; [apply insertOrIgnore_unique, Hu | apply Hload, Hu].
  - clear Hload. induction 1 as [|file'|t a Ht IH Hb].
    + constructor.
    + destruct (LoadArticlesFromCSV_cases ParseRFC3339 file' [])
        as [(header & lines & _ & _ & ->)|[[e ->] _]]; cbn [fst].
      * apply insertAll_unique. constructor.
      * constructor.
    + cbn [InsertArticle fst]. apply insertOrIgnore_unique, IH.
Qed.

(** The table restored from the file of the duplicate test has pairwise
    distinct URLs. *)
Lemma table_keeps_rows_and_unique_urls_witness :
  uniqueURLs
    (fst (LoadArticlesFromCSV sample.parseRFC3339Z
            (Some sample.duplicateCSV) [])).
Proof.
  apply (table_keeps_rows_and_unique_urls
           sample.parseRFC3339Z sample.detectEnglish sample.sanitizePlain
           sample.clock None sample.article).
  apply (stored_restore sample.parseRFC3339Z sample.detectEnglish
                        sample.sanitizePlain sample.clock
                        (Some sample.duplicateCSV)).
Defined.

(* ===================================================================== *)
(** * The test cases of db_test.go, run on the embedding                  *)
(* ===================================================================== *)

Example rank_cyber : score "Cybersecurity" "New malware advisory released"
    "A threat actor is using phishing to spread it." = 12.
Proof. reflexivity. Qed.

Example rank_tech : score "Tech" "AI breakthrough in quantum computing"
    "This innovation will shape the future of tech." = 25.
Proof. reflexivity. Qed.

Example rank_general : score "General" "News update report" "A general report." = 3.
Proof. reflexivity. Qed.

Example category_verge :
  getCategoryForSource "https://www.theverge.com/rss/index.xml" = "Tech".
Proof. reflexivity. Qed.

Example rank_no_keywords : score "Cybersecurity" "An article" "Some text." = 0.
Proof. reflexivity. Qed.

Example category_bleeping :
  getCategoryForSource "https://www.bleepingcomputer.com/feed/"
  = "Cybersecurity".
Proof. reflexivity. Qed.

Example category_defenseone :
  getCategoryForSource "https://www.defenseone.com/rss/all/" = "Defense".
Proof. reflexivity. Qed.

Example category_unknown :
  getCategoryForSource "http://example.com/feed" = "General".
Proof. reflexivity. Qed.

(** [TestGetTodayThreatScore]: ranks 10, 5, 4, 2, 1, 0 within the day and
    one article of two days ago. *)
Example threat_score_test :
  fst (GetTodayThreatScore sample.now sample.threatRows)
  = mkThreatScore 2 2 2 6 "Code Red".
Proof. reflexivity. Qed.

(** [TestGetTodayThreatScoreLevels]. *)
Example threat_levels_test :
  map (fun rows => ThreatLevel (fst (GetTodayThreatScore sample.now rows)))
      [[sample.ranked "t1" "u1" 0 5]; [sample.ranked "t1" "u1" 0 3];
       [sample.ranked "t1" "u1" 0 1]; []]
  = ["Code Red"; "Attention"; "Business as Usual"; "No Threats Reported"].
Proof. reflexivity. Qed.

(** [TestGetArticleCount] and [TestLoadArticlesFromCSV]. *)
Example restore_test :
  LoadArticlesFromCSV sample.parseRFC3339Z (Some sample.articlesCSV) []
  = (sample.restored, None)
  /\ GetArticleCount sample.restored = 3
  /\ nth_error sample.restored 1 = Some sample.article2.
Proof. repeat split; vm_compute; reflexivity. Qed.

(** [TestLoadArticlesFromCSV_FileNotFound] and [..._InvalidFormat]. *)
Example restore_errors_test :
  LoadArticlesFromCSV sample.parseRFC3339Z None []
  = ([], Some "failed to open CSV file")
  /\ LoadArticlesFromCSV sample.parseRFC3339Z (Some sample.invalidCSV) []
     = ([], Some "invalid CSV header").
Proof. split; reflexivity. Qed.

(** [TestLoadArticlesFromCSV_DuplicateArticles]. *)
Example restore_duplicates_test :
  GetArticleCount
    (fst (LoadArticlesFromCSV sample.parseRFC3339Z
            (Some sample.duplicateCSV) [])) = 1.
Proof. vm_compute. reflexivity. Qed.

(** The epoch of Unix time in seconds since Go's zero time. *)
Example unix_epoch :
  sample.parseRFC3339Z "1970-01-01T00:00:00Z" = Some 62135596800.
Proof. vm_compute. reflexivity. Qed.

Example atoi_cases :
  map strconv.Atoi ["5"; "-5"; "+7"; ""; "-"; "1_0"; "five";
                    "9223372036854775808"]
  = [Some 5; Some (-5); Some 7; None; None; None; None; None].
Proof. vm_compute. reflexivity. Qed.

(** [LIKE] with and without wildcards in the search filter. *)
Example like_cases :
  (like "%a_c%" "xxabcxx", like "%a_c%" "xxacxx", like "%abc%" "xxABCxx",
   like "a%b" "a123bc")
  = (true, false, true, false).
Proof. reflexivity. Qed.

(** Text added to the title can undo a match that runs across the join of
    title and description, here "active attack": the rank follows the set
    of matched keywords, not the length of the text. *)
Example rank_title_join :
  score "Cybersecurity" "Active" "attack" = 8
  /\ score "Cybersecurity" "Active data" "attack" = 4.
Proof. split; reflexivity. Qed.

(** A worker on a feed of three items, the second of which is found to be
    German: two articles are sent, in the order of the feed, and the
    clock is read once, for the item that has no date. *)
Example worker_mixed_feed :
  let result :=
    fetchWorker (fun _ => Some sample.mixedFeed) sample.detectByTitle
                sample.sanitizePlain sample.clock
                "https://www.bleepingcomputer.com/feed/" 0 in
  map URL (fst result) = ["https://example.com/a"; "https://example.com/b"]
  /\ map Rank (fst result) = [17; 5]
  /\ map PublishedAt (fst result) = [63800000000; 63799995000]
  /\ map ImageURL (fst result) = [""; "https://example.com/b.png"]
  /\ snd result = 1%nat.
Proof. vm_compute. repeat split; reflexivity. Qed.

(** A worker whose feed does not parse. *)
Example worker_failed_feed :
  fetchWorker (fun _ => None) sample.detectEnglish sample.sanitizePlain
              sample.clock "http://example.com/feed" 5
  = ([], 5%nat).
Proof. reflexivity. Qed.

(** The restore of the duplicate test logs two loaded articles and
    stores one. *)
Example restore_duplicates_count :
  importRecords sample.parseRFC3339Z 8 (tl sample.duplicateCSV) [] 0
  = (fst (LoadArticlesFromCSV sample.parseRFC3339Z
            (Some sample.duplicateCSV) []), 2).
Proof. vm_compute. reflexivity. Qed.
